(** * Note-taking backend: identity, sessions, rate limiting and the note store

    A shallow embedding of [backend/auth.js], [backend/notes.js] and the
    middleware of the Express entry point ([requireAuth], [rateLimit]).

    Conventions of the embedding:
    - module-level mutable tables ([users], [sessions], [notes],
      [rateLimitMap]) are threaded explicitly: an operation takes the table
      and returns the new one next to its JavaScript return value;
    - [Date.now()] / [new Date()] is the argument [now], in milliseconds;
      [uuidv4()] is the argument [uuid]; the bcrypt salt is the argument [salt];
    - a JavaScript exception is the [Throw] constructor of [result], and
      [try { .. } catch (e) { .. }] is [try_catch];
    - request fields that the code keeps or inspects without validating them
      are dynamically typed values ([jsval]): the fields of a note, the body
      of a note request ([None] when the request carried no body) and the
      password of [signup] and [login]; a username is a string, the empty
      string standing for a missing one;
    - [signup] suspends at [await bcrypt.hash] between its uniqueness check
      and its [users.push]; it takes the table as it is at the call and the
      table as it is when the hash resolves, which other requests may have
      changed in between. *)

From Stdlib Require Import ZArith String Ascii List Lia.
From stdpp Require Import gmap strings list fin_maps sorting.

Open Scope string_scope.
Open Scope Z_scope.
Open Scope list_scope.

(** ** JavaScript values and exceptions *)

(** The JSON values a request body or a query string can carry.  [JUndefined]
    is a field that is absent.  Objects are opaque: no code path below looks
    inside one. *)
#[local] Set Warnings "-register-all".
Inductive jsval : Type :=
| JUndefined
| JNull
| JBool (b : bool)
| JNum (n : Z)
| JStr (s : string)
| JArr (xs : list jsval)
| JObj.

(** [TypeError] is raised by the runtime (property access on [undefined],
    call of a non-function); [Error msg] is [new Error(msg)]. *)
Inductive exn : Type :=
| TypeError
| Error (message : string).

Inductive result (A : Type) : Type :=
| Ok (a : A)
| Throw (e : exn).
Arguments Ok {A} a.
Arguments Throw {A} e.

Definition bind {A B} (r : result A) (k : A -> result B) : result B :=
  match r with
  | Ok a => k a
  | Throw e => Throw e
  end.

Declare Scope js_scope.
Delimit Scope js_scope with js.
Notation "'let*' x ':=' c 'in' k" := (bind c (fun x => k))
  (at level 10, x name, c at level 100, k at level 200) : js_scope.
Open Scope js_scope.

(** [try { body } catch (e) { handler(e) }] *)
Definition try_catch {A} (body : result A) (handler : exn -> result A) : result A :=
  match body with
  | Ok a => Ok a
  | Throw e => handler e
  end.

(** JavaScript truthiness ([if (v)], [!v], [a && b]). *)
Definition truthy (v : jsval) : bool :=
  match v with
  | JUndefined | JNull => false
  | JBool b => b
  | JNum n => negb (Z.eqb n 0)
  | JStr s => negb (String.eqb s "")
  | JArr _ | JObj => true
  end.

(** [typeof v] *)
Definition typeof (v : jsval) : string :=
  match v with
  | JUndefined => "undefined"
  | JNull => "object"
  | JBool _ => "boolean"
  | JNum _ => "number"
  | JStr _ => "string"
  | JArr _ | JObj => "object"
  end.

(** A destructuring default [{ x = d }]: used only when the field is
    [undefined]. *)
Definition or_default (v d : jsval) : jsval :=
  match v with
  | JUndefined => d
  | _ => v
  end.

(** ** Strings *)

Definition lower_ascii (c : ascii) : ascii :=
  let n := nat_of_ascii c in
  if ((65 <=? n)%nat && (n <=? 90)%nat)%bool then ascii_of_nat (n + 32) else c.

(** [String.prototype.toLowerCase] on the ASCII range. *)
Fixpoint lower (s : string) : string :=
  match s with
  | EmptyString => EmptyString
  | String c r => String (lower_ascii c) (lower r)
  end.

(** [s.includes(sub)] *)
Fixpoint includes (s sub : string) : bool :=
  if String.prefix sub s then true
  else match s with
       | EmptyString => false
       | String _ r => includes r sub
       end.

(** [v.toLowerCase()]: a method that only strings have. *)
Definition toLowerCase (v : jsval) : result string :=
  match v with
  | JStr s => Ok (lower s)
  | _ => Throw TypeError
  end.

(** [arr.some(f)] with a callback that may throw: stops at the first hit. *)
Fixpoint array_some (f : jsval -> result bool) (xs : list jsval) : result bool :=
  match xs with
  | [] => Ok false
  | x :: r => let* b := f x in if b then Ok true else array_some f r
  end.

(** [arr.filter(f)] with a callback that may throw. *)
Fixpoint array_filter {A} (f : A -> result bool) (xs : list A) : result (list A) :=
  match xs with
  | [] => Ok []
  | x :: r =>
      let* b := f x in
      let* r' := array_filter f r in
      Ok (if b then x :: r' else r')
  end.

(** ** The note store ([backend/notes.js]) *)

Record Note : Type := mkNote {
  note_id : string;
  note_owner : string;
  note_title : jsval;
  note_content : jsval;
  note_isPublic : jsval;
  note_tags : jsval;
  note_category : jsval;
  note_views : Z;
  note_createdAt : Z;
  note_updatedAt : Z;
  note_isDeleted : bool;
  note_deletedAt : option Z
}.

(** The object literal [{ title, content, isPublic, tags, category }] that the
    route handler builds from the request body. *)
Record NoteInput : Type := mkNoteInput {
  in_title : jsval;
  in_content : jsval;
  in_isPublic : jsval;
  in_tags : jsval;
  in_category : jsval
}.

Definition createNote (notes : list Note) (uuid : string) (now : Z)
    (userId : string) (inp : NoteInput) : result (Note * list Note) :=
  try_catch
    (let note := {|
       note_id := uuid;
       note_owner := userId;
       note_title := in_title inp;
       note_content := in_content inp;
       note_isPublic := or_default (in_isPublic inp) (JBool false);
       note_tags := or_default (in_tags inp) (JArr []);
       note_category := or_default (in_category inp) (JStr "General");
       note_views := 0;
       note_createdAt := now;
       note_updatedAt := now;
       note_isDeleted := false;
       note_deletedAt := None |} in
     Ok (note, notes ++ [note]))
    (fun _ => Throw (Error "Failed to create note")).

(** [arr.findIndex(p)], with [None] for [-1]. *)
Fixpoint findIndex {A} (p : A -> bool) (xs : list A) : option nat :=
  match xs with
  | [] => None
  | x :: r => if p x then Some 0%nat else option_map S (findIndex p r)
  end.

(** [arr.sort(cmp)]: the sort of the language is stable; [cmp a b <= 0] keeps
    [a] before [b]. *)
Fixpoint sort_insert {A} (cmp : A -> A -> Z) (x : A) (xs : list A) : list A :=
  match xs with
  | [] => [x]
  | y :: r => if cmp x y <=? 0 then x :: y :: r else y :: sort_insert cmp x r
  end.

Definition array_sort {A} (cmp : A -> A -> Z) (xs : list A) : list A :=
  foldr (sort_insert cmp) [] xs.

(** The query object [{ search, filter }]. *)
Record ListOptions : Type := mkListOptions {
  opt_search : jsval;
  opt_filter : jsval
}.

(** [note => note.owner === userId && !note.isDeleted] *)
Definition owned_live (userId : string) (note : Note) : bool :=
  String.eqb (note_owner note) userId && negb (note_isDeleted note).

(** The search callback of [listNotes]; [||] and [&&] evaluate left to right
    and stop as soon as the result is known. *)
Definition search_hit (searchLower : string) (note : Note) : result bool :=
  let* t := toLowerCase (note_title note) in
  if includes t searchLower then Ok true else
  let* c := toLowerCase (note_content note) in
  if includes c searchLower then Ok true else
  if truthy (note_tags note) then
    match note_tags note with
    | JArr tags =>
        array_some (fun tag => let* g := toLowerCase tag in Ok (includes g searchLower)) tags
    | _ => Throw TypeError
    end
  else Ok false.

Definition weekMs : Z := 7 * 24 * 60 * 60 * 1000.

(** The [switch (filter)] of [listNotes]; [case] compares with [===]. *)
Definition filter_keep (filter : jsval) (now : Z) (note : Note) : bool :=
  if truthy filter then
    match filter with
    | JStr f =>
        if String.eqb f "public" then truthy (note_isPublic note)
        else if String.eqb f "private" then negb (truthy (note_isPublic note))
        else if String.eqb f "recent" then now - weekMs <? note_updatedAt note
        else true
    | _ => true
    end
  else true.

(** [(a, b) => new Date(b.updatedAt) - new Date(a.updatedAt)] *)
Definition by_updated_desc (a b : Note) : Z := note_updatedAt b - note_updatedAt a.

Definition listNotes (notes : list Note) (userId : string) (options : ListOptions)
    (now : Z) : result (list Note) :=
  try_catch
    (let userNotes := List.filter (owned_live userId) notes in
     let* userNotes :=
       if truthy (opt_search options) then
         let* searchLower := toLowerCase (opt_search options) in
         array_filter (search_hit searchLower) userNotes
       else Ok userNotes in
     let userNotes := List.filter (filter_keep (opt_filter options) now) userNotes in
     Ok (array_sort by_updated_desc userNotes))
    (fun _ => Throw (Error "Failed to fetch notes")).

(** [note => note.id === noteId && note.owner === userId && !note.isDeleted] *)
Definition live_match (userId noteId : string) (note : Note) : bool :=
  String.eqb (note_id note) noteId && String.eqb (note_owner note) userId
  && negb (note_isDeleted note).

Definition bump_views (note : Note) : Note :=
  mkNote (note_id note) (note_owner note) (note_title note) (note_content note)
    (note_isPublic note) (note_tags note) (note_category note)
    (note_views note + 1) (note_createdAt note) (note_updatedAt note)
    (note_isDeleted note) (note_deletedAt note).

(** [notes.find] hands out the stored object itself, so [note.views++] is seen
    both in the store and in the returned note. *)
Definition getNote (notes : list Note) (userId noteId : string)
    : result (option Note * list Note) :=
  try_catch
    (match findIndex (live_match userId noteId) notes with
     | Some i =>
         match notes !! i with
         | Some note => let note' := bump_views note in
                        Ok (Some note', <[i := note']> notes)
         | None => Ok (None, notes)
         end
     | None => Ok (None, notes)
     end)
    (fun _ => Throw (Error "Failed to fetch note")).

(** [obj[field]] on a request body. *)
Definition get_field (obj : gmap string jsval) (field : string) : jsval :=
  match obj !! field with
  | Some v => v
  | None => JUndefined
  end.

(** [note[field] = v].  The record types [id], [owner], [views], the time
    stamps and the deletion flag; an assignment of another type of value to
    one of those is not representable and is never issued by the code below,
    whose [allowedUpdates] names dynamically typed fields only. *)
Definition set_field (note : Note) (field : string) (v : jsval) : Note :=
  let '(mkNote i o t c p g k w ca ua d da) := note in
  if String.eqb field "title" then mkNote i o v c p g k w ca ua d da
  else if String.eqb field "content" then mkNote i o t v p g k w ca ua d da
  else if String.eqb field "isPublic" then mkNote i o t c v g k w ca ua d da
  else if String.eqb field "tags" then mkNote i o t c p v k w ca ua d da
  else if String.eqb field "category" then mkNote i o t c p g v w ca ua d da
  else match v with
       | JStr s =>
           if String.eqb field "id" then mkNote s o t c p g k w ca ua d da
           else if String.eqb field "owner" then mkNote i s t c p g k w ca ua d da
           else note
       | JNum n =>
           if String.eqb field "views" then mkNote i o t c p g k n ca ua d da
           else if String.eqb field "createdAt" then mkNote i o t c p g k w n ua d da
           else if String.eqb field "updatedAt" then mkNote i o t c p g k w ca n d da
           else if String.eqb field "deletedAt" then mkNote i o t c p g k w ca ua d (Some n)
           else note
       | JBool b =>
           if String.eqb field "isDeleted" then mkNote i o t c p g k w ca ua b da
           else note
       | _ => note
       end.

Definition allowedUpdates : list string :=
  ["title"; "content"; "isPublic"; "tags"; "category"].

Definition touch_updated (now : Z) (note : Note) : Note :=
  mkNote (note_id note) (note_owner note) (note_title note) (note_content note)
    (note_isPublic note) (note_tags note) (note_category note)
    (note_views note) (note_createdAt note) now
    (note_isDeleted note) (note_deletedAt note).

(** The body of the [forEach]:
    [if (updateData[field] !== undefined) note[field] = updateData[field]]. *)
Definition apply_update (updateData : gmap string jsval) (note : Note)
    (field : string) : Note :=
  match get_field updateData field with
  | JUndefined => note
  | v => set_field note field v
  end.

(** The [forEach] over [allowedUpdates]. *)
Definition apply_updates (updateData : gmap string jsval) (note : Note) : Note :=
  foldl (apply_update updateData) note allowedUpdates.

Definition updateNote (notes : list Note) (userId noteId : string)
    (updateData : gmap string jsval) (now : Z) : result (option Note * list Note) :=
  try_catch
    (match findIndex (live_match userId noteId) notes with
     | None => Ok (None, notes)
     | Some noteIndex =>
         match notes !! noteIndex with
         | Some note =>
             let note' := touch_updated now (apply_updates updateData note) in
             Ok (Some note', <[noteIndex := note']> notes)
         | None => Throw TypeError
         end
     end)
    (fun _ => Throw (Error "Failed to update note")).

Definition soft_delete (now : Z) (note : Note) : Note :=
  mkNote (note_id note) (note_owner note) (note_title note) (note_content note)
    (note_isPublic note) (note_tags note) (note_category note)
    (note_views note) (note_createdAt note) (note_updatedAt note)
    true (Some now).

Definition deleteNote (notes : list Note) (userId noteId : string) (now : Z)
    : result (bool * list Note) :=
  try_catch
    (match findIndex (live_match userId noteId) notes with
     | None => Ok (false, notes)
     | Some noteIndex =>
         match notes !! noteIndex with
         | Some note => Ok (true, <[noteIndex := soft_delete now note]> notes)
         | None => Throw TypeError
         end
     end)
    (fun _ => Throw (Error "Failed to delete note")).

(** ** Identity and sessions ([backend/auth.js]) *)

Record User : Type := mkUser {
  user_id : string;
  user_username : string;
  user_password : string;
  user_createdAt : Z;
  user_lastLogin : option Z;
  user_isActive : bool
}.

(** [const { password: _, ...userInfo } = user] *)
Record UserInfo : Type := mkUserInfo {
  info_id : string;
  info_username : string;
  info_createdAt : Z;
  info_lastLogin : option Z;
  info_isActive : bool
}.

Definition userInfo (u : User) : UserInfo :=
  mkUserInfo (user_id u) (user_username u) (user_createdAt u) (user_lastLogin u)
    (user_isActive u).

Record Session : Type := mkSession {
  session_id : string;
  session_userId : string;
  session_username : string;
  session_createdAt : Z;
  session_lastActivity : Z;
  session_isActive : bool
}.

(** The claims of a token, as [login] writes them. *)
Record Payload : Type := mkPayload {
  payload_id : string;
  payload_username : string;
  payload_sessionId : string;
  payload_iat : Z;
  payload_exp : Z
}.

Record AuthState : Type := mkAuthState {
  users : list User;
  sessions : gmap string Session
}.

(** The two libraries [auth.js] calls, and the secret it reads from the
    environment.  [bcrypt_hash password salt] is [bcrypt.hash] with the salt
    it draws made explicit; [jwt_verify token secret now] is [jwt.verify] with
    the clock it reads made explicit, and throws where the library throws. *)
Class Libs : Type := {
  SECRET : string;
  bcrypt_hash : string -> string -> string;
  bcrypt_compare : string -> string -> bool;
  jwt_sign : Payload -> string -> string;
  jwt_verify : string -> string -> Z -> result Payload
}.

(** [s.split(sep)] for a one-character separator. *)
Fixpoint split (sep : ascii) (s : string) : list string :=
  match s with
  | EmptyString => [EmptyString]
  | String c r =>
      if Ascii.eqb c sep then EmptyString :: split sep r
      else match split sep r with
           | h :: t => String c h :: t
           | [] => [String c EmptyString]
           end
  end.

Definition nonempty (s : string) : bool := negb (String.eqb s "").

(** What the library accepts as contract: a password compares equal to its
    own hash; a token verifies under the key that signed it until the second
    its [exp] names; a token is one non-empty word. *)
Class LibsSpec (L : Libs) : Prop := {
  bcrypt_compare_hash : forall password salt,
    bcrypt_compare password (bcrypt_hash password salt) = true;
  jwt_verify_sign : forall payload key now,
    now / 1000 < payload_exp payload ->
    jwt_verify (jwt_sign payload key) key now = Ok payload;
  jwt_sign_word : forall payload key,
    split " " (jwt_sign payload key) = [jwt_sign payload key] /\
    nonempty (jwt_sign payload key) = true
}.

Section Auth.
Context {L : Libs}.

(** [users.find(p)] as the position and the value of the first hit. *)
Definition array_find {A} (p : A -> bool) (xs : list A) : option (nat * A) :=
  match findIndex p xs with
  | Some i => option_map (fun x => (i, x)) (xs !! i)
  | None => None
  end.

Definition findUser (us : list User) (username : string) : option (nat * User) :=
  array_find (fun u => String.eqb (user_username u) username) us.

Definition findUserById (us : list User) (id : string) : option (nat * User) :=
  array_find (fun u => String.eqb (user_id u) id) us.

(** [bcrypt.hash(s, SALT_ROUNDS)] and [bcrypt.compare(s, hash)] as bcryptjs
    guards them: an [s] that is not a string rejects the promise with
    [Error("Illegal arguments: " + typeof s + ", " + typeof <second argument>)];
    the second argument is the number [SALT_ROUNDS], respectively the stored
    hash, always a string. *)
Definition bcrypt_hash_checked (s : jsval) (salt : string) : result string :=
  match s with
  | JStr password => Ok (bcrypt_hash password salt)
  | _ => Throw (Error (String.append "Illegal arguments: "
                         (String.append (typeof s) ", number")))
  end.

Definition bcrypt_compare_checked (s : jsval) (hash : string) : result bool :=
  match s with
  | JStr password => Ok (bcrypt_compare password hash)
  | _ => Throw (Error (String.append "Illegal arguments: "
                         (String.append (typeof s) ", string")))
  end.

(** [signup].  [st] is the state at the call, on which the two checks run;
    [st'] is the state at which [await bcrypt.hash] resumes and the user is
    pushed.  [signup st st] is the run that no other request interleaves. *)
Definition signup (st st' : AuthState) (username : string) (password : jsval)
    (uuid salt : string) (now : Z) : result (UserInfo * AuthState) :=
  try_catch
    (if negb (nonempty username) || negb (truthy password) then
       Throw (Error "Username and password are required")
     else
       match findUser (users st) username with
       | Some _ => Throw (Error "Username already exists")
       | None =>
           let* hashedPassword := bcrypt_hash_checked password salt in
           let user := mkUser uuid username hashedPassword now None true in
           Ok (userInfo user, mkAuthState (users st' ++ [user]) (sessions st'))
       end)
    (fun error => Throw error).

Record LoginResult : Type := mkLoginResult {
  login_token : string;
  login_user : UserInfo;
  login_sessionId : string
}.

Definition set_lastLogin (now : Z) (u : User) : User :=
  mkUser (user_id u) (user_username u) (user_password u) (user_createdAt u)
    (Some now) (user_isActive u).

(** [login], as the run that no other request interleaves.  The user that
    [findUser] returns is the stored object; users are never removed,
    reordered or renamed and a stored password never changes, so what runs
    while [await bcrypt.compare] is pending changes neither the outcome of
    the comparison nor the position that is written afterwards. *)
Definition login (st : AuthState) (username : string) (password : jsval)
    (uuid : string) (now : Z) : result (LoginResult * AuthState) :=
  try_catch
    (if negb (nonempty username) || negb (truthy password) then
       Throw (Error "Username and password are required")
     else
       match findUser (users st) username with
       | None => Throw (Error "Invalid username or password")
       | Some (i, user0) =>
           let* isValidPassword :=
             bcrypt_compare_checked password (user_password user0) in
           if negb isValidPassword then
             Throw (Error "Invalid username or password")
           else
             let user := set_lastLogin now user0 in
             let sessionId := uuid in
             let session :=
               mkSession sessionId (user_id user) (user_username user) now now true in
             let payload :=
               mkPayload (user_id user) (user_username user) sessionId
                 (now / 1000) (now / 1000 + 24 * 60 * 60) in
             let token := jwt_sign payload SECRET in
             Ok (mkLoginResult token (userInfo user) sessionId,
                 mkAuthState (<[i := user]> (users st))
                   (<[sessionId := session]> (sessions st)))
       end)
    (fun error => Throw error).

(** [verifyTokenSync]; [None] is [null].  [verifyToken] has the same body. *)
Definition verifyTokenSync (st : AuthState) (token : string) (now : Z)
    : result (option Payload) :=
  try_catch
    (let* decoded := jwt_verify token SECRET now in
     match findUserById (users st) (payload_id decoded) with
     | None => Ok None
     | Some (_, user) => if negb (user_isActive user) then Ok None else Ok (Some decoded)
     end)
    (fun _ => Ok None).

Definition getActiveSession (st : AuthState) (sessionId : string) : option Session :=
  sessions st !! sessionId.

Definition touch_session (now : Z) (s : Session) : Session :=
  mkSession (session_id s) (session_userId s) (session_username s)
    (session_createdAt s) now (session_isActive s).

Definition updateSessionActivity (st : AuthState) (sessionId : string) (now : Z)
    : AuthState :=
  match sessions st !! sessionId with
  | Some session =>
      mkAuthState (users st) (<[sessionId := touch_session now session]> (sessions st))
  | None => st
  end.

(** [sessions.delete(sessionId)] answers whether the key was there. *)
Definition logout (st : AuthState) (sessionId : string) : bool * AuthState :=
  (bool_decide (is_Some (sessions st !! sessionId)),
   mkAuthState (users st) (delete sessionId (sessions st))).

(** ** The middleware of the entry point *)

Record Headers : Type := mkHeaders {
  authorization : option string;
  x_session_id : option string
}.

(** What a middleware does with a request: answer it with a status and an
    error text, or hand it on ([next()]) with [req.user] set. *)
Inductive response : Type :=
| Status (code : Z) (error : string)
| Next (user : Payload).

(** [authHeader && authHeader.split(' ')[1]], then [!token]. *)
Definition bearer_token (h : Headers) : option string :=
  match authorization h with
  | None => None
  | Some authHeader =>
      if nonempty authHeader then
        match split " " authHeader !! 1%nat with
        | Some token => if nonempty token then Some token else None
        | None => None
        end
      else None
  end.

Definition requireAuth (st : AuthState) (h : Headers) (now : Z)
    : response * AuthState :=
  match
    (match bearer_token h with
     | None => Ok (Status 401 "Access token required", st)
     | Some token =>
         let* payload := verifyTokenSync st token now in
         match payload with
         | None => Ok (Status 403 "Invalid or expired token", st)
         | Some payload =>
             let st' :=
               match x_session_id h with
               | Some sessionId =>
                   if nonempty sessionId then updateSessionActivity st sessionId now
                   else st
               | None => st
               end in
             Ok (Next payload, st')
         end
     end)
  with
  | Ok r => r
  | Throw _ => (Status 500 "Authentication error", st)
  end.

(** [POST /api/logout]: behind [requireAuth]; the session to drop is the one
    the [x-session-id] header names. *)
Definition logoutRoute (st : AuthState) (h : Headers) (now : Z)
    : response * bool * AuthState :=
  match requireAuth st h now with
  | (Next user, st') =>
      match x_session_id h with
      | Some sessionId =>
          if nonempty sessionId then (Next user, true, snd (logout st' sessionId))
          else (Next user, true, st')
      | None => (Next user, true, st')
      end
  | (r, st') => (r, false, st')
  end.

End Auth.

(** ** Rate limiting ([rateLimit] of the entry point) *)

Record RateWindow : Type := mkRateWindow {
  count : Z;
  resetTime : Z
}.

Inductive verdict : Type :=
| Pass
| TooManyRequests (retryAfter : Z).

(** [Math.ceil(a / b)] for a positive [b]. *)
Definition ceil_div (a b : Z) : Z := - ((- a) / b).

Definition rateLimit (maxRequests windowMs : Z) (rateLimitMap : gmap string RateWindow)
    (clientId : string) (now : Z) : verdict * gmap string RateWindow :=
  match rateLimitMap !! clientId with
  | None => (Pass, <[clientId := mkRateWindow 1 (now + windowMs)]> rateLimitMap)
  | Some clientData =>
      if resetTime clientData <? now then
        (Pass, <[clientId := mkRateWindow 1 (now + windowMs)]> rateLimitMap)
      else if maxRequests <=? count clientData then
        (TooManyRequests (ceil_div (resetTime clientData - now) 1000), rateLimitMap)
      else
        (Pass, <[clientId := mkRateWindow (count clientData + 1) (resetTime clientData)]>
                 rateLimitMap)
  end.

(** ** A reference instance of the libraries

    A small, executable stand-in for bcrypt and for signed tokens, used to run
    the operations above on concrete requests.  A token is the key and the
    claims written one after the other in a self-delimiting alphabet without
    spaces; a hash is the salt followed by the password. *)
Module RefLibs.

Definition bit_char (b : bool) : ascii := if b then "1"%char else "0"%char.

Definition char_bit (c : ascii) : option bool :=
  if Ascii.eqb c "1" then Some true
  else if Ascii.eqb c "0" then Some false
  else None.

Definition enc_char (c : ascii) (k : string) : string :=
  let '(Ascii b0 b1 b2 b3 b4 b5 b6 b7) := c in
  String "+" (String (bit_char b0) (String (bit_char b1) (String (bit_char b2)
    (String (bit_char b3) (String (bit_char b4) (String (bit_char b5)
      (String (bit_char b6) (String (bit_char b7) k)))))))).

(** [enc_str s k]: the text [s], closed by a dot, in front of [k]. *)
Fixpoint enc_str (s : string) (k : string) : string :=
  match s with
  | EmptyString => String "." k
  | String c r => enc_char c (enc_str r k)
  end.

Fixpoint dec_str (s : string) : option (string * string) :=
  match s with
  | String "." rest => Some (EmptyString, rest)
  | String "+" (String c0 (String c1 (String c2 (String c3 (String c4
      (String c5 (String c6 (String c7 rest)))))))) =>
      match char_bit c0, char_bit c1, char_bit c2, char_bit c3,
            char_bit c4, char_bit c5, char_bit c6, char_bit c7, dec_str rest with
      | Some b0, Some b1, Some b2, Some b3, Some b4, Some b5, Some b6, Some b7,
        Some (t, rest') => Some (String (Ascii b0 b1 b2 b3 b4 b5 b6 b7) t, rest')
      | _, _, _, _, _, _, _, _, _ => None
      end
  | _ => None
  end.

Fixpoint enc_pos (p : positive) (k : string) : string :=
  match p with
  | xH => String "h" k
  | xO q => String "o" (enc_pos q k)
  | xI q => String "i" (enc_pos q k)
  end.

Fixpoint dec_pos (s : string) : option (positive * string) :=
  match s with
  | String "h" rest => Some (xH, rest)
  | String "o" rest => option_map (fun '(q, r) => (xO q, r)) (dec_pos rest)
  | String "i" rest => option_map (fun '(q, r) => (xI q, r)) (dec_pos rest)
  | _ => None
  end.

Definition enc_Z (z : Z) (k : string) : string :=
  match z with
  | Z0 => String "z" k
  | Zpos p => String "p" (enc_pos p k)
  | Zneg p => String "n" (enc_pos p k)
  end.

Definition dec_Z (s : string) : option (Z * string) :=
  match s with
  | String "z" rest => Some (0, rest)
  | String "p" rest => option_map (fun '(q, r) => (Zpos q, r)) (dec_pos rest)
  | String "n" rest => option_map (fun '(q, r) => (Zneg q, r)) (dec_pos rest)
  | _ => None
  end.

Definition sign (payload : Payload) (key : string) : string :=
  enc_str key (enc_str (payload_id payload) (enc_str (payload_username payload)
    (enc_str (payload_sessionId payload) (enc_Z (payload_iat payload)
      (enc_Z (payload_exp payload) EmptyString))))).

Definition parse (token : string) : option (string * Payload) :=
  match dec_str token with
  | Some (key, r1) =>
    match dec_str r1 with
    | Some (id, r2) =>
      match dec_str r2 with
      | Some (username, r3) =>
        match dec_str r3 with
        | Some (sessionId, r4) =>
          match dec_Z r4 with
          | Some (iat, r5) =>
            match dec_Z r5 with
            | Some (exp, EmptyString) => Some (key, mkPayload id username sessionId iat exp)
            | _ => None
            end
          | None => None
          end
        | None => None
        end
      | None => None
      end
    | None => None
    end
  | None => None
  end.

Definition verify (token key : string) (now : Z) : result Payload :=
  match parse token with
  | None => Throw (Error "jwt malformed")
  | Some (key', payload) =>
      if negb (String.eqb key' key) then Throw (Error "invalid signature")
      else if payload_exp payload <=? now / 1000 then Throw (Error "jwt expired")
      else Ok payload
  end.

Definition hash (password salt : string) : string := enc_str salt password.

Definition compare (password hashed : string) : bool :=
  match dec_str hashed with
  | Some (_, p) => String.eqb p password
  | None => false
  end.

#[export] Instance libs : Libs := {|
  SECRET := "supersecretkey-change-in-production";
  bcrypt_hash := hash;
  bcrypt_compare := compare;
  jwt_sign := sign;
  jwt_verify := verify
|}.

Fixpoint nospace (s : string) : bool :=
  match s with
  | EmptyString => true
  | String c r => negb (Ascii.eqb c " ") && nospace r
  end.

End RefLibs.

(** ** Reference predicates and sample data

    The listing of the specification as total tests, the order it asks for,
    a run of one client through a limiter, and the concrete stores and
    requests the examples below run on. *)

(** Most recent first. *)
Definition newer_first (a b : Note) : Prop := note_updatedAt b <= note_updatedAt a.

(** The search of the specification, as a total test: the lower-cased term
    occurs in the title, in the content or in one of the tags. *)
Definition text_has (searchLower : string) (v : jsval) : bool :=
  match v with
  | JStr s => includes (lower s) searchLower
  | _ => false
  end.

Definition search_match (searchLower : string) (note : Note) : bool :=
  text_has searchLower (note_title note)
  || text_has searchLower (note_content note)
  || match note_tags note with
     | JArr tags => existsb (text_has searchLower) tags
     | _ => false
     end.

Definition search_keep (search : jsval) (note : Note) : bool :=
  if truthy search then
    match search with
    | JStr s => search_match (lower s) note
    | _ => false
    end
  else true.

(** The notes [list] is to return, before ordering. *)
Definition selected (userId : string) (options : ListOptions) (now : Z) (note : Note) : bool :=
  owned_live userId note && search_keep (opt_search options) note
  && filter_keep (opt_filter options) now note.

(** A note the search callback can inspect without raising. *)
Definition searchable (note : Note) : bool :=
  match note_title note, note_content note with
  | JStr _, JStr _ =>
      match note_tags note with
      | JArr tags => forallb (fun t => match t with JStr _ => true | _ => false end) tags
      | v => negb (truthy v)
      end
  | _, _ => false
  end.

(** The requests of one client, served in order by one limiter. *)
Fixpoint serve (maxRequests windowMs : Z) (m : gmap string RateWindow)
    (clientId : string) (times : list Z) : list verdict * gmap string RateWindow :=
  match times with
  | [] => ([], m)
  | now :: rest =>
      let '(v, m') := rateLimit maxRequests windowMs m clientId now in
      let '(vs, m'') := serve maxRequests windowMs m' clientId rest in
      (v :: vs, m'')
  end.

Definition longTitle : string := string_of_list_ascii (repeat "a"%char 201).

Definition sampleNote : Note :=
  mkNote "n1" "u1" (JStr "A") (JStr "B") (JBool false) (JArr []) (JStr "General")
    0 1000 1000 false None.

Definition aliceSignedUp : AuthState :=
  match signup (L := RefLibs.libs) (mkAuthState [] ∅) (mkAuthState [] ∅)
          "alice" (JStr "pw1") "u-1" "salt" 1000 with
  | Ok (_, st) => st
  | Throw _ => mkAuthState [] ∅
  end.

Definition aliceLogin : LoginResult * AuthState :=
  match login (L := RefLibs.libs) aliceSignedUp "alice" (JStr "pw1") "s-1" 5000 with
  | Ok r => r
  | Throw _ => (mkLoginResult "" (mkUserInfo "" "" 0 None false) "", aliceSignedUp)
  end.

Definition aliceHeaders : Headers :=
  mkHeaders (Some (String.append "Bearer " (login_token (fst aliceLogin)))) (Some "s-1").

(** ** The rest of [backend/auth.js] *)

Definition expiredTime : Z := 24 * 60 * 60 * 1000.

(** The body of the loop of [cleanupSessions]. *)
Definition sweep_step (now : Z) (entry : string * Session)
    (acc : gmap string Session) : gmap string Session :=
  if expiredTime <? now - session_lastActivity (snd entry)
  then delete (fst entry) acc
  else acc.

(** [for (const [sessionId, session] of sessions.entries()) ..]: every entry
    of the table is visited once. *)
Definition cleanupSessions (st : AuthState) (now : Z) : AuthState :=
  mkAuthState (users st)
    (foldr (sweep_step now) (sessions st) (map_to_list (sessions st))).

Record UserStats : Type := mkUserStats {
  totalUsers : nat;
  activeUsers : nat;
  recentUsers : nat;
  activeSessions : nat;
  stats_error : option string
}.

(** [u.lastLogin || u.createdAt] *)
Definition last_seen (u : User) : Z :=
  match user_lastLogin u with
  | Some t => t
  | None => user_createdAt u
  end.

Definition getUserStats (st : AuthState) (now : Z) : result UserStats :=
  try_catch
    (let totalUsers := length (users st) in
     let activeUsers := length (List.filter user_isActive (users st)) in
     let recentUsers :=
       length (List.filter (fun u => now - 24 * 60 * 60 * 1000 <? last_seen u) (users st)) in
     Ok (mkUserStats totalUsers activeUsers recentUsers (size (sessions st)) None))
    (fun _ =>
       Ok (mkUserStats 0 0 0 (size (sessions st))
             (Some "Unable to fetch user statistics"))).

(** The stores a run of [auth.js] can hold.  [users] and [sessions] are not
    exported, so they change only through the functions of the module: the
    run starts with both empty, and each step is one of the operations that
    write, on a store reached before.  A [signup] runs its checks on one
    reachable store and resumes on another; [requireAuth] and the logout
    route write through [updateSessionActivity] and [logout]. *)
Section Reachable.
Context {L : Libs}.

Inductive built : AuthState -> Prop :=
| built_start : built (mkAuthState [] ∅)
| built_signup st st' username password uuid salt now userInfo st'' :
    built st -> built st' ->
    signup st st' username password uuid salt now = Ok (userInfo, st'') ->
    built st''
| built_login st username password uuid now r st' :
    built st ->
    login st username password uuid now = Ok (r, st') ->
    built st'
| built_logout st sessionId :
    built st -> built (snd (logout st sessionId))
| built_updateSessionActivity st sessionId now :
    built st -> built (updateSessionActivity st sessionId now)
| built_cleanupSessions st now :
    built st -> built (cleanupSessions st now).

(** What every stored user of a reachable store looks like: active, with a
    username that is not empty and the hash of a non-empty password. *)
Definition signed_up (usr : User) : Prop :=
  user_isActive usr = true /\ nonempty (user_username usr) = true /\
  exists p salt, p <> "" /\ user_password usr = bcrypt_hash p salt.

End Reachable.

(** ** The rest of [backend/notes.js] *)

(** The characters [\s] matches, on the ASCII range. *)
Definition is_space (c : ascii) : bool :=
  let n := nat_of_ascii c in
  (n =? 32)%nat || ((9 <=? n)%nat && (n <=? 13)%nat).

(** [s.split(/\s+/)]: the pieces between the maximal runs of white space;
    [prev] tells that the character before [s] was white space. *)
Fixpoint split_ws (prev : bool) (s : string) : list string :=
  match s with
  | EmptyString => [EmptyString]
  | String c r =>
      if is_space c then
        if prev then split_ws true r else EmptyString :: split_ws true r
      else match split_ws false r with
           | h :: t => String c h :: t
           | [] => [String c EmptyString]
           end
  end.

Definition calculateReadingTime (content : string) : Z :=
  let wordsPerMinute := 200 in
  let wordCount := Z.of_nat (length (split_ws false content)) in
  ceil_div wordCount wordsPerMinute.

(** ** The note schema ([backend/models/Note.js]): the parts that compute *)

(** The [excerpt] virtual. *)
Definition excerpt (content : string) : string :=
  if (150 <? String.length content)%nat
  then String.append (String.substring 0 150 content) "..."
  else content.

(** The word count of the pre-save hook:
    [content.split(/\s+/).filter(word => word.length > 0).length]. *)
Definition wordCount (content : string) : nat :=
  length (List.filter (fun word => (0 <? String.length word)%nat) (split_ws false content)).

Definition readingTime (content : string) : Z :=
  ceil_div (Z.of_nat (wordCount content)) 200.

(** ** The note routes of the entry point *)

(** What the note routes send: [{ error }], the notes, one note, or
    [{ success, message }]. *)
Inductive reply_body : Type :=
| ErrorBody (error : string)
| NotesBody (notes : list Note)
| NoteBody (note : Note)
| DeletedBody (success : bool) (message : string).

Record reply : Type := mkReply {
  reply_status : Z;
  reply_content : reply_body
}.

Section Routes.
Context {L : Libs}.

(** [GET /api/notes] *)
Definition listRoute (st : AuthState) (notes : list Note) (h : Headers)
    (query : ListOptions) (now : Z) : reply * AuthState * list Note :=
  match requireAuth st h now with
  | (Status code error, st') => (mkReply code (ErrorBody error), st', notes)
  | (Next user, st') =>
      match listNotes notes (payload_id user) query now with
      | Ok userNotes => (mkReply 200 (NotesBody userNotes), st', notes)
      | Throw _ => (mkReply 500 (ErrorBody "Failed to fetch notes"), st', notes)
      end
  end.

(** [GET /api/notes/:id] *)
Definition getRoute (st : AuthState) (notes : list Note) (h : Headers)
    (id : string) (now : Z) : reply * AuthState * list Note :=
  match requireAuth st h now with
  | (Status code error, st') => (mkReply code (ErrorBody error), st', notes)
  | (Next user, st') =>
      match getNote notes (payload_id user) id with
      | Ok (Some note, notes') => (mkReply 200 (NoteBody note), st', notes')
      | Ok (None, notes') => (mkReply 404 (ErrorBody "Note not found"), st', notes')
      | Throw _ => (mkReply 500 (ErrorBody "Failed to fetch note"), st', notes)
      end
  end.

(** [const { title, content, isPublic, tags, category } = req.body].
    [req.body] is the parsed JSON object of the request, or [undefined]
    ([None]) for a request that carried no JSON body; destructuring
    [undefined] throws. *)
Definition note_input_of (body : option (gmap string jsval)) : result NoteInput :=
  match body with
  | Some fields =>
      Ok (mkNoteInput (get_field fields "title") (get_field fields "content")
            (get_field fields "isPublic") (get_field fields "tags")
            (get_field fields "category"))
  | None => Throw TypeError
  end.

(** [notes.updateNote(userId, id, req.body)]: with [updateData] undefined,
    [updateData[field]] throws inside the [try] of [updateNote], once a note
    was found. *)
Definition updateNote_body (notes : list Note) (userId noteId : string)
    (body : option (gmap string jsval)) (now : Z) : result (option Note * list Note) :=
  match body with
  | Some updateData => updateNote notes userId noteId updateData now
  | None =>
      try_catch
        (match findIndex (live_match userId noteId) notes with
         | None => Ok (None, notes)
         | Some _ => Throw TypeError
         end)
        (fun _ => Throw (Error "Failed to update note"))
  end.

(** [POST /api/notes] *)
Definition createRoute (st : AuthState) (notes : list Note) (h : Headers)
    (body : option (gmap string jsval)) (uuid : string) (now : Z)
    : reply * AuthState * list Note :=
  match requireAuth st h now with
  | (Status code error, st') => (mkReply code (ErrorBody error), st', notes)
  | (Next user, st') =>
      match (let* input := note_input_of body in
             createNote notes uuid now (payload_id user) input) with
      | Ok (note, notes') => (mkReply 201 (NoteBody note), st', notes')
      | Throw _ => (mkReply 500 (ErrorBody "Failed to create note"), st', notes)
      end
  end.

(** [PUT /api/notes/:id] *)
Definition updateRoute (st : AuthState) (notes : list Note) (h : Headers)
    (id : string) (body : option (gmap string jsval)) (now : Z)
    : reply * AuthState * list Note :=
  match requireAuth st h now with
  | (Status code error, st') => (mkReply code (ErrorBody error), st', notes)
  | (Next user, st') =>
      match updateNote_body notes (payload_id user) id body now with
      | Ok (Some note, notes') => (mkReply 200 (NoteBody note), st', notes')
      | Ok (None, notes') => (mkReply 404 (ErrorBody "Note not found"), st', notes')
      | Throw _ => (mkReply 500 (ErrorBody "Failed to update note"), st', notes)
      end
  end.

(** [DELETE /api/notes/:id] *)
Definition deleteRoute (st : AuthState) (notes : list Note) (h : Headers)
    (id : string) (now : Z) : reply * AuthState * list Note :=
  match requireAuth st h now with
  | (Status code error, st') => (mkReply code (ErrorBody error), st', notes)
  | (Next user, st') =>
      match deleteNote notes (payload_id user) id now with
      | Ok (true, notes') =>
          (mkReply 200 (DeletedBody true "Note deleted successfully"), st', notes')
      | Ok (false, notes') => (mkReply 404 (ErrorBody "Note not found"), st', notes')
      | Throw _ => (mkReply 500 (ErrorBody "Failed to delete note"), st', notes)
      end
  end.

End Routes.

(** Which verdicts let the request through. *)
Definition is_pass (v : verdict) : bool :=
  match v with
  | Pass => true
  | TooManyRequests _ => false
  end.

(** The only change [getNote], [updateNote] and [deleteNote] make to the
    store: nothing, or one live note of the caller with the identifier is
    replaced in place by a note that keeps its identifier, owner and creation
    time. *)
Definition in_place_change (userId noteId : string) (notes notes' : list Note) : Prop :=
  notes' = notes \/
  exists i n n',
    notes !! i = Some n /\ live_match userId noteId n = true /\
    notes' = <[i := n']> notes /\
    note_id n' = note_id n /\ note_owner n' = note_owner n /\
    note_createdAt n' = note_createdAt n.

(** What identifies a stored note for good. *)
Definition note_identity (n : Note) : string * string * Z :=
  (note_id n, note_owner n, note_createdAt n).

(** The notes last updated at [t]. *)
Definition updated_at (t : Z) (n : Note) : bool := note_updatedAt n =? t.

(** What [login] leaves alone in a user. *)
Definition user_identity (u : User) : string * string * string * Z * bool :=
  (user_id u, user_username u, user_password u, user_createdAt u, user_isActive u).

(** A second note of the same owner, last updated at the same time. *)
Definition sampleTwin : Note :=
  mkNote "n2" "u1" (JStr "C") (JStr "D") (JBool true) (JArr []) (JStr "General")
    0 1000 1000 false None.

(** What [createNote] stores for the body [{"title": "T", "content": "B"}]. *)
Definition sampleCreated : Note :=
  mkNote "n9" "u2" (JStr "T") (JStr "B") (JBool false) (JArr []) (JStr "General")
    0 5000 5000 false None.

(** A second user, bob, signs up and logs in after alice; he then sends his
    own token together with the identifier of alice's session. *)
Definition bobLogin : LoginResult * AuthState :=
  match signup (L := RefLibs.libs) (snd aliceLogin) (snd aliceLogin)
          "bob" (JStr "pw2") "u-2" "salt2" 7000 with
  | Ok (_, st) =>
      match login (L := RefLibs.libs) st "bob" (JStr "pw2") "s-2" 8000 with
      | Ok r => r
      | Throw _ => aliceLogin
      end
  | Throw _ => aliceLogin
  end.

Definition bobHeaders : Headers :=
  mkHeaders (Some (String.append "Bearer " (login_token (fst bobLogin)))) (Some "s-1").

(** * Properties *)

(** ** Array helpers *)

Lemma findIndex_Some {A} (p : A -> bool) (xs : list A) (i : nat) :
  findIndex p xs = Some i ->
  exists x, xs !! i = Some x /\ p x = true /\
            forall j y, (j < i)%nat -> xs !! j = Some y -> p y = false.
Proof.
  revert i. induction xs as [|x r IH]; intros i; simpl; [discriminate|].
  destruct (p x) eqn:Hp.
  - intros [= <-]. exists x. repeat split; auto. intros j y Hj. lia.
  - destruct (findIndex p r) as [k|]; simpl; [|discriminate].
    intros [= <-]. destruct (IH k eq_refl) as (y & Hy & Hpy & Hfirst).
    exists y. repeat split; auto.
    intros [|j] z Hj Hz; simpl in Hz.
    + congruence.
    + apply (Hfirst j); [lia | exact Hz].
Qed.

Lemma findIndex_None {A} (p : A -> bool) (xs : list A) :
  findIndex p xs = None <-> forall x, x ∈ xs -> p x = false.
Proof.
  induction xs as [|x r IH]; simpl.
  - split; [intros _ y Hy; inversion Hy | reflexivity].
  - destruct (p x) eqn:Hp.
    + split; [discriminate|]. intros H. specialize (H x (list_elem_of_here _ _)). congruence.
    + destruct (findIndex p r) as [k|] eqn:Hk; simpl.
      * split; [discriminate|]. intros H.
        assert (Hr : forall y, y ∈ r -> p y = false)
          by (intros y Hy; apply H; now apply list_elem_of_further).
        apply IH in Hr. discriminate.
      * split; [|reflexivity]. intros _ y Hy.
        apply elem_of_cons in Hy as [-> | Hy]; [exact Hp|].
        now apply (proj1 IH).
Qed.

Lemma findIndex_is_Some {A} (p : A -> bool) (xs : list A) (x : A) :
  x ∈ xs -> p x = true -> exists i, findIndex p xs = Some i.
Proof.
  intros Hin Hp. destruct (findIndex p xs) as [i|] eqn:E; [eauto|].
  rewrite findIndex_None in E. rewrite (E x Hin) in Hp. discriminate.
Qed.

Lemma sort_insert_perm {A} (cmp : A -> A -> Z) (x : A) (xs : list A) :
  sort_insert cmp x xs ≡ₚ x :: xs.
Proof.
  induction xs as [|y r IH]; simpl; [reflexivity|].
  destruct (cmp x y <=? 0); [reflexivity|].
  rewrite IH. apply Permutation_swap.
Qed.

Lemma array_sort_perm {A} (cmp : A -> A -> Z) (xs : list A) :
  array_sort cmp xs ≡ₚ xs.
Proof.
  induction xs as [|x r IH]; simpl; [reflexivity|].
  rewrite sort_insert_perm. now rewrite IH.
Qed.

Lemma sort_insert_sorted (x : Note) (xs : list Note) :
  StronglySorted newer_first xs ->
  StronglySorted newer_first (sort_insert by_updated_desc x xs).
Proof.
  induction 1 as [|y r Hr IH Hy]; simpl.
  - repeat constructor.
  - unfold by_updated_desc at 1. destruct (Z.leb_spec (note_updatedAt y - note_updatedAt x) 0).
    + constructor; [constructor; assumption|].
      constructor; [unfold newer_first; lia|].
      eapply Forall_impl; [exact Hy|]. unfold newer_first. intros; lia.
    + constructor; [exact IH|].
      rewrite sort_insert_perm. constructor; [unfold newer_first; lia | exact Hy].
Qed.

Lemma array_sort_sorted (xs : list Note) :
  StronglySorted newer_first (array_sort by_updated_desc xs).
Proof.
  induction xs as [|x r IH]; simpl; [constructor|].
  now apply sort_insert_sorted.
Qed.

(** ** Listing *)

Lemma array_some_Ok (sl : string) (tags : list jsval) (b : bool) :
  array_some (fun tag => let* g := toLowerCase tag in Ok (includes g sl)) tags = Ok b ->
  b = existsb (text_has sl) tags.
Proof.
  revert b. induction tags as [|t r IH]; simpl; intros b.
  - now intros [= <-].
  - destruct t; simpl; try discriminate.
    destruct (includes (lower s) sl); simpl; [now intros [= <-] | apply IH].
Qed.

Lemma search_hit_Ok (sl : string) (note : Note) (b : bool) :
  search_hit sl note = Ok b -> b = search_match sl note.
Proof.
  unfold search_hit, search_match.
  destruct (note_title note) as [| | | |t| |]; simpl; try discriminate.
  destruct (includes (lower t) sl); simpl; [now intros [= <-]|].
  destruct (note_content note) as [| | | |c| |]; simpl; try discriminate.
  destruct (includes (lower c) sl); simpl; [now intros [= <-]|].
  destruct (truthy (note_tags note)) eqn:Ht.
  - destruct (note_tags note); try discriminate. apply array_some_Ok.
  - intros [= <-]. destruct (note_tags note); try reflexivity. discriminate.
Qed.

Lemma array_some_total (sl : string) (tags : list jsval) :
  forallb (fun t => match t with JStr _ => true | _ => false end) tags = true ->
  exists b, array_some (fun tag => let* g := toLowerCase tag in Ok (includes g sl)) tags = Ok b.
Proof.
  induction tags as [|t r IH]; simpl; [eauto|].
  destruct t; simpl; try discriminate.
  intros Hr. destruct (includes (lower s) sl); simpl; eauto.
Qed.

Lemma search_hit_total (sl : string) (note : Note) :
  searchable note = true -> exists b, search_hit sl note = Ok b.
Proof.
  unfold searchable, search_hit.
  destruct (note_title note) as [| | | |t| |]; try discriminate.
  destruct (note_content note) as [| | | |c| |]; try discriminate.
  simpl. intros Hs.
  destruct (includes (lower t) sl); simpl; [eauto|].
  destruct (includes (lower c) sl); simpl; [eauto|].
  destruct (truthy (note_tags note)) eqn:Ht; [|eauto].
  destruct (note_tags note) as [| |b|n|s|tags|];
    try (simpl in Ht, Hs; rewrite Ht in Hs; discriminate); try discriminate.
  now apply array_some_total.
Qed.

Lemma array_filter_Ok {A} (f : A -> result bool) (g : A -> bool) (xs l : list A) :
  (forall x b, x ∈ xs -> f x = Ok b -> b = g x) ->
  array_filter f xs = Ok l -> l = List.filter g xs.
Proof.
  revert l. induction xs as [|x r IH]; simpl; intros l Hfg.
  - now intros [= <-].
  - destruct (f x) as [b|e] eqn:Hf; simpl; [|discriminate].
    destruct (array_filter f r) as [r'|e] eqn:Hr; simpl; [|discriminate].
    intros [= <-].
    rewrite <- (Hfg x b (list_elem_of_here _ _) Hf).
    rewrite (IH r'); auto.
    intros y c Hy. apply Hfg. now apply list_elem_of_further.
Qed.

Lemma array_filter_total {A} (f : A -> result bool) (xs : list A) :
  (forall x, x ∈ xs -> exists b, f x = Ok b) ->
  exists l, array_filter f xs = Ok l.
Proof.
  induction xs as [|x r IH]; simpl; intros Hf; [eauto|].
  destruct (Hf x (list_elem_of_here _ _)) as [b ->]. simpl.
  destruct IH as [l ->]; [|simpl; eauto].
  intros y Hy. apply Hf. now apply list_elem_of_further.
Qed.

Lemma filter_filter_and {A} (f g : A -> bool) (xs : list A) :
  List.filter g (List.filter f xs) = List.filter (fun x => f x && g x) xs.
Proof.
  induction xs as [|x r IH]; simpl; [reflexivity|].
  destruct (f x); simpl; [destruct (g x)|]; now rewrite IH.
Qed.

(** Whenever [listNotes] returns, it returns the selected notes, most
    recently updated first. *)
Lemma listNotes_Ok (notes : list Note) (userId : string) (options : ListOptions)
    (now : Z) (l : list Note) :
  listNotes notes userId options now = Ok l ->
  l = array_sort by_updated_desc (List.filter (selected userId options now) notes).
Proof.
  unfold listNotes, selected, search_keep.
  destruct (truthy (opt_search options)) eqn:Hs; simpl.
  - destruct (opt_search options) as [| | | |s| |]; simpl; try discriminate.
    destruct (array_filter _ _) as [found|e] eqn:Hf; simpl; [|discriminate].
    intros [= <-].
    apply (array_filter_Ok _ (search_match (lower s))) in Hf.
    + subst found. rewrite !filter_filter_and. f_equal.
      apply List.filter_ext. intros x.
      now destruct (owned_live userId x), (search_match (lower s) x).
    + intros x b _. apply search_hit_Ok.
  - intros [= <-]. rewrite filter_filter_and. f_equal.
    apply List.filter_ext. intros x. now rewrite andb_true_r.
Qed.

Lemma listNotes_sound (notes : list Note) (userId : string) (options : ListOptions)
    (now : Z) (l : list Note) :
  listNotes notes userId options now = Ok l ->
  l ≡ₚ List.filter (selected userId options now) notes /\
  StronglySorted newer_first l.
Proof.
  intros ->%listNotes_Ok. split; [apply array_sort_perm | apply array_sort_sorted].
Qed.

(** [listNotes] returns when there is no search term, and when the term is a
    string and every live note of the caller is [searchable]. *)
Lemma listNotes_total (notes : list Note) (userId : string) (options : ListOptions)
    (now : Z) :
  truthy (opt_search options) = false \/
  ((exists s, opt_search options = JStr s) /\
   forall n, n ∈ notes -> owned_live userId n = true -> searchable n = true) ->
  exists l, listNotes notes userId options now = Ok l.
Proof.
  unfold listNotes. intros [-> | [[s Hs] Hall]]; simpl; [eauto|].
  rewrite Hs. destruct (truthy (JStr s)); simpl; [|eauto].
  destruct (array_filter_total (search_hit (lower s)) (List.filter (owned_live userId) notes))
    as [l ->]; [|simpl; eauto].
  intros n Hn. apply list_elem_of_In, List.filter_In in Hn as [Hn Ho].
  apply search_hit_total, Hall; [now apply list_elem_of_In | exact Ho].
Qed.

(** ** Creating, reading, updating and deleting notes *)

(** C2, as stated, fails: a request without a title, a request with an empty
    content and a request whose title has 201 characters are all stored. *)
Lemma createNote_accepts_invalid :
  (exists note,
     createNote [] "n1" 1000 "u1"
       (mkNoteInput JUndefined (JStr "body") JUndefined JUndefined JUndefined)
     = Ok (note, [note]) /\ note_title note = JUndefined) /\
  (exists note,
     createNote [] "n1" 1000 "u1"
       (mkNoteInput (JStr "A") (JStr "") JUndefined JUndefined JUndefined)
     = Ok (note, [note]) /\ note_content note = JStr "") /\
  (exists note,
     createNote [] "n1" 1000 "u1"
       (mkNoteInput (JStr longTitle) (JStr "B") JUndefined JUndefined JUndefined)
     = Ok (note, [note]) /\ note_title note = JStr longTitle /\
     String.length longTitle = 201%nat).
Proof.
  repeat split; eexists; repeat split; reflexivity.
Qed.

(** C2, amended: for every owner and every creation request, whatever its
    title and content, [createNote] succeeds, appends exactly one note to the
    store and returns it; the note carries the request's title and content
    unchanged, the defaults isPublic=false, tags=[] and category="General" for
    the fields the request leaves out, a view counter of 0 and a cleared
    soft-delete flag. *)
Theorem createNote_spec (notes : list Note) (uuid userId : string) (now : Z)
    (inp : NoteInput) :
  exists note,
    createNote notes uuid now userId inp = Ok (note, notes ++ [note]) /\
    note_id note = uuid /\ note_owner note = userId /\
    note_title note = in_title inp /\ note_content note = in_content inp /\
    note_isPublic note = or_default (in_isPublic inp) (JBool false) /\
    note_tags note = or_default (in_tags inp) (JArr []) /\
    note_category note = or_default (in_category inp) (JStr "General") /\
    note_views note = 0 /\ note_isDeleted note = false /\
    note_deletedAt note = None /\
    note_createdAt note = now /\ note_updatedAt note = now.
Proof.
  eexists. unfold createNote, try_catch. repeat split.
Qed.

(** C6, at the failing input: a note stored without a title (the request body
    [{"content": "body"}]) makes every later search of its owner fail with
    "Failed to fetch notes", where the claim has [list] return the matching
    notes; the note is one of them, the term "bo" occurs in its content. *)
Theorem listNotes_search_throws_on_untitled :
  exists note notes,
    createNote [] "n1" 1000 "u1"
      (mkNoteInput JUndefined (JStr "body") JUndefined JUndefined JUndefined)
    = Ok (note, notes) /\
    selected "u1" (mkListOptions (JStr "bo") JUndefined) 2000 note = true /\
    listNotes notes "u1" (mkListOptions (JStr "bo") JUndefined) 2000
    = Throw (Error "Failed to fetch notes").
Proof.
  do 2 eexists. split; [reflexivity|]. split; reflexivity.
Qed.

Lemma ids_unique_index (notes : list Note) (i j : nat) (a b : Note) :
  NoDup (note_id <$> notes) ->
  notes !! i = Some a -> notes !! j = Some b -> note_id a = note_id b -> i = j.
Proof.
  intros Hnd Ha Hb Hab.
  apply (NoDup_lookup (note_id <$> notes) i j (note_id a) Hnd).
  - now rewrite list_lookup_fmap, Ha.
  - now rewrite list_lookup_fmap, Hb, Hab.
Qed.

Lemma live_match_true (userId noteId : string) (n : Note) :
  live_match userId noteId n = true <->
  note_id n = noteId /\ note_owner n = userId /\ note_isDeleted n = false.
Proof.
  unfold live_match. rewrite !andb_true_iff, !String.eqb_eq, negb_true_iff. tauto.
Qed.

Lemma live_match_false (userId noteId : string) (n : Note) :
  live_match userId noteId n = false <->
  ~ (note_id n = noteId /\ note_owner n = userId /\ note_isDeleted n = false).
Proof.
  rewrite <- live_match_true. destruct (live_match userId noteId n); split; congruence.
Qed.

Lemma elem_of_insert_inv {A} (l : list A) (i : nat) (x y : A) :
  y ∈ <[i := x]> l -> y = x \/ exists j, j <> i /\ l !! j = Some y.
Proof.
  intros [j Hj]%list_elem_of_lookup.
  destruct (decide (j = i)) as [->|Hne].
  - left. destruct (decide (i < length l)%nat) as [Hlt|Hge].
    + rewrite list_lookup_insert_eq in Hj by exact Hlt. congruence.
    + rewrite list_insert_ge in Hj by lia.
      apply lookup_lt_Some in Hj. lia.
  - right. exists j. split; [exact Hne|].
    now rewrite list_lookup_insert_ne in Hj by congruence.
Qed.

(** With unique identifiers, the lookup of a live note of the caller finds
    that very note. *)
Lemma findIndex_live (notes : list Note) (userId noteId : string) (N : Note) :
  NoDup (note_id <$> notes) -> N ∈ notes -> live_match userId noteId N = true ->
  exists i, findIndex (live_match userId noteId) notes = Some i /\ notes !! i = Some N.
Proof.
  intros Hnd Hin Hlive.
  destruct (findIndex_is_Some _ _ _ Hin Hlive) as [i Hi].
  exists i. split; [exact Hi|].
  destruct (findIndex_Some _ _ _ Hi) as (n0 & Hn0 & Hl0 & _).
  apply list_elem_of_lookup in Hin as [j Hj].
  apply live_match_true in Hlive as (Hid & _), Hl0 as (Hid0 & _).
  assert (i = j) as -> by (eapply ids_unique_index; eauto; congruence).
  exact Hj.
Qed.

(** Once the only note with identifier [noteId] is soft-deleted, no note of
    the store matches the lookup. *)
Lemma no_live_after_delete (notes : list Note) (userId noteId : string) (now : Z)
    (i : nat) (N : Note) :
  NoDup (note_id <$> notes) -> notes !! i = Some N -> note_id N = noteId ->
  forall n, n ∈ <[i := soft_delete now N]> notes -> live_match userId noteId n = false.
Proof.
  intros Hnd Hi Hid n [-> | (j & Hne & Hj)]%elem_of_insert_inv.
  - unfold live_match. simpl. now rewrite andb_false_r.
  - apply live_match_false. intros (Hidn & _).
    apply Hne. eapply ids_unique_index; eauto. congruence.
Qed.

(** Identifiers stay unique: [createNote] adds a fresh one, and the in-place
    changes of the other operations keep the identifier of the note they
    touch. *)
Lemma createNote_ids_unique (notes notes' : list Note) (uuid userId : string)
    (now : Z) (inp : NoteInput) (note : Note) :
  NoDup (note_id <$> notes) -> uuid ∉ (note_id <$> notes) ->
  createNote notes uuid now userId inp = Ok (note, notes') ->
  NoDup (note_id <$> notes').
Proof.
  intros Hnd Hfresh [= <- <-]. rewrite fmap_app. cbn.
  apply NoDup_app. split; [exact Hnd|]. split.
  - intros x Hx Hx'. apply list_elem_of_singleton in Hx' as ->. now apply Hfresh.
  - apply NoDup_singleton.
Qed.

Lemma insert_ids (notes : list Note) (i : nat) (n n' : Note) :
  notes !! i = Some n -> note_id n' = note_id n ->
  note_id <$> <[i := n']> notes = note_id <$> notes.
Proof.
  intros Hi Hid. rewrite list_fmap_insert, Hid.
  apply list_insert_id. now rewrite list_lookup_fmap, Hi.
Qed.

(** C9: [getNote] returns no note (and leaves the store as it is) when no note
    has the identifier, or the notes that have it belong to someone else or
    are soft-deleted; when the caller has a live note with the identifier, it
    returns that note with its view counter one higher, stores the same
    change, and leaves every other position of the store unchanged. *)
Theorem getNote_spec (notes : list Note) (userId noteId : string) :
  ((forall n, n ∈ notes -> note_id n = noteId ->
      note_owner n <> userId \/ note_isDeleted n = true) ->
   getNote notes userId noteId = Ok (None, notes)) /\
  (forall n, n ∈ notes -> note_id n = noteId -> note_owner n = userId ->
     note_isDeleted n = false ->
     exists i n0,
       notes !! i = Some n0 /\
       note_id n0 = noteId /\ note_owner n0 = userId /\ note_isDeleted n0 = false /\
       getNote notes userId noteId
       = Ok (Some (bump_views n0), <[i := bump_views n0]> notes) /\
       note_views (bump_views n0) = note_views n0 + 1 /\
       length (<[i := bump_views n0]> notes) = length notes /\
       forall j, j <> i -> <[i := bump_views n0]> notes !! j = notes !! j).
Proof.
  split.
  - intros Hnone. unfold getNote.
    replace (findIndex (live_match userId noteId) notes) with (@None nat); [reflexivity|].
    symmetry. apply findIndex_None. intros n Hn. apply live_match_false.
    intros (Hid & Ho & Hd). destruct (Hnone n Hn Hid); congruence.
  - intros n Hn Hid Ho Hd.
    assert (Hlive : live_match userId noteId n = true) by now apply live_match_true.
    destruct (findIndex_is_Some _ _ _ Hn Hlive) as [i Hi].
    destruct (findIndex_Some _ _ _ Hi) as (n0 & Hn0 & Hl0 & _).
    apply live_match_true in Hl0 as (? & ? & ?).
    exists i, n0. unfold getNote. rewrite Hi, Hn0. simpl.
    repeat split; auto.
    + apply length_insert.
    + intros j Hj. apply list_lookup_insert_ne. congruence.
Qed.

Lemma getNote_spec_witness :
  getNote [sampleNote] "u2" "n1" = Ok (None, [sampleNote]) /\
  exists i n0, [sampleNote] !! i = Some n0 /\
    getNote [sampleNote] "u1" "n1"
    = Ok (Some (bump_views n0), <[i := bump_views n0]> [sampleNote]).
Proof.
  split.
  - apply (proj1 (getNote_spec [sampleNote] "u2" "n1")).
    intros n Hn _. apply list_elem_of_singleton in Hn as ->. left. discriminate.
  - destruct (proj2 (getNote_spec [sampleNote] "u1" "n1") sampleNote) as (i & n0 & H);
      [apply list_elem_of_here | reflexivity | reflexivity | reflexivity |].
    exists i, n0. tauto.
Defined.

Lemma upd_title (updateData : gmap string jsval) (n : Note) :
  apply_update updateData n "title"
  = mkNote (note_id n) (note_owner n) (or_default (get_field updateData "title") (note_title n)) (note_content n)
      (note_isPublic n) (note_tags n) (note_category n) (note_views n)
      (note_createdAt n) (note_updatedAt n) (note_isDeleted n) (note_deletedAt n).
Proof. unfold apply_update. destruct n, (get_field updateData _); reflexivity. Qed.

Lemma upd_content (updateData : gmap string jsval) (n : Note) :
  apply_update updateData n "content"
  = mkNote (note_id n) (note_owner n) (note_title n) (or_default (get_field updateData "content") (note_content n))
      (note_isPublic n) (note_tags n) (note_category n) (note_views n)
      (note_createdAt n) (note_updatedAt n) (note_isDeleted n) (note_deletedAt n).
Proof. unfold apply_update. destruct n, (get_field updateData _); reflexivity. Qed.

Lemma upd_isPublic (updateData : gmap string jsval) (n : Note) :
  apply_update updateData n "isPublic"
  = mkNote (note_id n) (note_owner n) (note_title n) (note_content n)
      (or_default (get_field updateData "isPublic") (note_isPublic n)) (note_tags n) (note_category n) (note_views n)
      (note_createdAt n) (note_updatedAt n) (note_isDeleted n) (note_deletedAt n).
Proof. unfold apply_update. destruct n, (get_field updateData _); reflexivity. Qed.

Lemma upd_tags (updateData : gmap string jsval) (n : Note) :
  apply_update updateData n "tags"
  = mkNote (note_id n) (note_owner n) (note_title n) (note_content n)
      (note_isPublic n) (or_default (get_field updateData "tags") (note_tags n)) (note_category n) (note_views n)
      (note_createdAt n) (note_updatedAt n) (note_isDeleted n) (note_deletedAt n).
Proof. unfold apply_update. destruct n, (get_field updateData _); reflexivity. Qed.

Lemma upd_category (updateData : gmap string jsval) (n : Note) :
  apply_update updateData n "category"
  = mkNote (note_id n) (note_owner n) (note_title n) (note_content n)
      (note_isPublic n) (note_tags n) (or_default (get_field updateData "category") (note_category n)) (note_views n)
      (note_createdAt n) (note_updatedAt n) (note_isDeleted n) (note_deletedAt n).
Proof. unfold apply_update. destruct n, (get_field updateData _); reflexivity. Qed.

(** The patch reaches the note through its five allowed fields only. *)
Lemma apply_updates_eq (updateData : gmap string jsval) (n : Note) :
  apply_updates updateData n
  = mkNote (note_id n) (note_owner n)
      (or_default (get_field updateData "title") (note_title n))
      (or_default (get_field updateData "content") (note_content n))
      (or_default (get_field updateData "isPublic") (note_isPublic n))
      (or_default (get_field updateData "tags") (note_tags n))
      (or_default (get_field updateData "category") (note_category n))
      (note_views n) (note_createdAt n) (note_updatedAt n)
      (note_isDeleted n) (note_deletedAt n).
Proof.
  unfold apply_updates, allowedUpdates. cbn [foldl].
  now rewrite upd_title, upd_content, upd_isPublic, upd_tags, upd_category.
Qed.

Lemma apply_updates_other_field (updateData : gmap string jsval) (f : string)
    (v : jsval) (n : Note) :
  f ∉ allowedUpdates ->
  apply_updates (<[f := v]> updateData) n = apply_updates updateData n.
Proof.
  intros Hf. rewrite !apply_updates_eq. unfold get_field.
  rewrite !lookup_insert_ne; [reflexivity|..];
    intros ->; apply Hf; unfold allowedUpdates; set_solver.
Qed.

(** C8: for a live note of the caller and any patch object, [updateNote]
    replaces exactly those of title, content, isPublic, tags and category that
    the patch supplies, keeps identifier, owner, view counter, soft-delete
    flag, deletion and creation time stamps whatever else the patch carries,
    sets the last-update time stamp to the current time, and leaves the other
    notes of the store alone. *)
Theorem updateNote_frame (notes : list Note) (userId noteId : string)
    (updateData : gmap string jsval) (now : Z) (n : Note) :
  n ∈ notes -> note_id n = noteId -> note_owner n = userId -> note_isDeleted n = false ->
  exists i n0 n',
    notes !! i = Some n0 /\
    note_id n0 = noteId /\ note_owner n0 = userId /\ note_isDeleted n0 = false /\
    updateNote notes userId noteId updateData now = Ok (Some n', <[i := n']> notes) /\
    note_title n' = or_default (get_field updateData "title") (note_title n0) /\
    note_content n' = or_default (get_field updateData "content") (note_content n0) /\
    note_isPublic n' = or_default (get_field updateData "isPublic") (note_isPublic n0) /\
    note_tags n' = or_default (get_field updateData "tags") (note_tags n0) /\
    note_category n' = or_default (get_field updateData "category") (note_category n0) /\
    note_id n' = note_id n0 /\ note_owner n' = note_owner n0 /\
    note_views n' = note_views n0 /\ note_isDeleted n' = note_isDeleted n0 /\
    note_createdAt n' = note_createdAt n0 /\ note_deletedAt n' = note_deletedAt n0 /\
    note_updatedAt n' = now /\
    (forall j, j <> i -> <[i := n']> notes !! j = notes !! j) /\
    (forall f v, f ∉ allowedUpdates ->
       updateNote notes userId noteId (<[f := v]> updateData) now
       = updateNote notes userId noteId updateData now).
Proof.
  intros Hn Hid Ho Hd.
  assert (Hlive : live_match userId noteId n = true) by now apply live_match_true.
  destruct (findIndex_is_Some _ _ _ Hn Hlive) as [i Hi].
  destruct (findIndex_Some _ _ _ Hi) as (n0 & Hn0 & Hl0 & _).
  apply live_match_true in Hl0 as (? & ? & ?).
  exists i, n0, (touch_updated now (apply_updates updateData n0)).
  unfold updateNote. rewrite Hi, Hn0. simpl. rewrite apply_updates_eq. simpl.
  repeat split; auto.
  - intros j Hj. apply list_lookup_insert_ne. congruence.
  - intros f v Hf. now rewrite apply_updates_other_field, apply_updates_eq.
Qed.

Lemma updateNote_frame_witness :
  exists n',
    updateNote [sampleNote] "u1" "n1"
      (<["views" := JNum 99]> (<["title" := JStr "T"]> (<["id" := JStr "x"]> ∅))) 2000
    = Ok (Some n', [n']) /\
    note_title n' = JStr "T" /\ note_id n' = "n1" /\ note_views n' = 0 /\
    note_updatedAt n' = 2000.
Proof.
  destruct (updateNote_frame [sampleNote] "u1" "n1"
              (<["views" := JNum 99]> (<["title" := JStr "T"]> (<["id" := JStr "x"]> ∅)))
              2000 sampleNote)
    as (i & n0 & n' & Hi & _ & _ & _ & Hu & Ht & _ & _ & _ & _ & Hid & _ & Hv & _ & _ & _ & Hup & _);
    [apply list_elem_of_here | reflexivity | reflexivity | reflexivity |].
  destruct i as [|i]; [|destruct i; discriminate].
  injection Hi as <-.
  exists n'. repeat split; assumption.
Defined.

(** C7: soft-deleting a live note [N] of the caller sets its deletion flag and
    deletion time and answers [true]; afterwards [getNote] on its identifier
    finds nothing, no listing of the caller contains it (and a listing without
    a search term does return), and a second [deleteNote] answers [false];
    deleting an identifier that no note of the caller carries answers [false]
    and changes nothing.  Identifiers are unique in the store. *)
Theorem deleteNote_spec (notes : list Note) (userId noteId : string) (now : Z) :
  (forall N, NoDup (note_id <$> notes) -> N ∈ notes ->
     note_id N = noteId -> note_owner N = userId -> note_isDeleted N = false ->
     exists i,
       notes !! i = Some N /\
       let notes' := <[i := soft_delete now N]> notes in
       deleteNote notes userId noteId now = Ok (true, notes') /\
       note_isDeleted (soft_delete now N) = true /\
       note_deletedAt (soft_delete now N) = Some now /\
       getNote notes' userId noteId = Ok (None, notes') /\
       (forall options t l, listNotes notes' userId options t = Ok l ->
          forall n, n ∈ l -> note_id n <> noteId) /\
       (forall filter t, exists l,
          listNotes notes' userId (mkListOptions JUndefined filter) t = Ok l) /\
       (forall now', deleteNote notes' userId noteId now' = Ok (false, notes'))) /\
  ((forall n, n ∈ notes -> note_id n = noteId -> note_owner n <> userId) ->
   deleteNote notes userId noteId now = Ok (false, notes)).
Proof.
  split.
  - intros N Hnd Hin Hid Ho Hd.
    assert (Hlive : live_match userId noteId N = true) by now apply live_match_true.
    destruct (findIndex_live _ _ _ _ Hnd Hin Hlive) as (i & Hi & HN).
    exists i. split; [exact HN|]. cbv zeta.
    pose proof (no_live_after_delete notes userId noteId now i N Hnd HN Hid) as Hgone.
    apply findIndex_None in Hgone.
    repeat split.
    + unfold deleteNote. now rewrite Hi, HN.
    + unfold getNote. now rewrite Hgone.
    + intros options t l Hl n Hn Hidn.
      apply listNotes_sound in Hl as [Hperm _]. rewrite Hperm in Hn.
      apply list_elem_of_In, List.filter_In in Hn as [Hn Hsel].
      apply list_elem_of_In in Hn.
      rewrite findIndex_None in Hgone. specialize (Hgone n Hn).
      unfold selected, owned_live in Hsel. unfold live_match in Hgone.
      apply andb_true_iff in Hsel as [Hsel _]. apply andb_true_iff in Hsel as [Hsel _].
      apply String.eqb_eq in Hidn. rewrite Hidn in Hgone. simpl in Hgone. congruence.
    + intros filter t. apply listNotes_total. now left.
    + intros now'. unfold deleteNote. now rewrite Hgone.
  - intros Hnone. unfold deleteNote.
    replace (findIndex (live_match userId noteId) notes) with (@None nat); [reflexivity|].
    symmetry. apply findIndex_None. intros n Hn. apply live_match_false.
    intros (Hid & Ho & _). now apply (Hnone n Hn Hid).
Qed.

Lemma deleteNote_spec_witness :
  deleteNote [sampleNote] "u1" "n1" 3000 = Ok (true, [soft_delete 3000 sampleNote]) /\
  getNote [soft_delete 3000 sampleNote] "u1" "n1" = Ok (None, [soft_delete 3000 sampleNote]) /\
  deleteNote [soft_delete 3000 sampleNote] "u1" "n1" 4000
  = Ok (false, [soft_delete 3000 sampleNote]) /\
  deleteNote [sampleNote] "u2" "n1" 3000 = Ok (false, [sampleNote]).
Proof.
  destruct (proj1 (deleteNote_spec [sampleNote] "u1" "n1" 3000) sampleNote)
    as (i & Hi & Hdel & _ & _ & Hget & _ & _ & Hagain);
    [apply NoDup_singleton | apply list_elem_of_here
    | reflexivity | reflexivity | reflexivity |].
  destruct i as [|i]; [|destruct i; discriminate].
  split; [exact Hdel | split; [exact Hget | split; [exact (Hagain 4000) |]]].
  apply (proj2 (deleteNote_spec [sampleNote] "u2" "n1" 3000)).
  intros n Hn _. apply list_elem_of_singleton in Hn as ->. discriminate.
Defined.

(** ** The reference libraries meet the library contract *)

Lemma ref_char_bit_char (b : bool) : RefLibs.char_bit (RefLibs.bit_char b) = Some b.
Proof. now destruct b. Qed.

Lemma ref_dec_enc_str (s k : string) :
  RefLibs.dec_str (RefLibs.enc_str s k) = Some (s, k).
Proof.
  induction s as [|c r IH]; [reflexivity|].
  destruct c as [b0 b1 b2 b3 b4 b5 b6 b7].
  cbn [RefLibs.enc_str RefLibs.enc_char RefLibs.dec_str].
  now rewrite !ref_char_bit_char, IH.
Qed.

Lemma ref_dec_enc_pos (p : positive) (k : string) :
  RefLibs.dec_pos (RefLibs.enc_pos p k) = Some (p, k).
Proof.
  induction p as [q IH|q IH|]; cbn [RefLibs.enc_pos RefLibs.dec_pos];
    [now rewrite IH | now rewrite IH | reflexivity].
Qed.

Lemma ref_dec_enc_Z (z : Z) (k : string) :
  RefLibs.dec_Z (RefLibs.enc_Z z k) = Some (z, k).
Proof.
  destruct z; cbn [RefLibs.enc_Z RefLibs.dec_Z]; [reflexivity|..];
    now rewrite ref_dec_enc_pos.
Qed.

Lemma ref_parse_sign (payload : Payload) (key : string) :
  RefLibs.parse (RefLibs.sign payload key) = Some (key, payload).
Proof.
  unfold RefLibs.parse, RefLibs.sign.
  rewrite !ref_dec_enc_str, !ref_dec_enc_Z. now destruct payload.
Qed.

Lemma ref_nospace_enc_str (s k : string) :
  RefLibs.nospace (RefLibs.enc_str s k) = RefLibs.nospace k.
Proof.
  induction s as [|c r IH]; [reflexivity|].
  destruct c as [b0 b1 b2 b3 b4 b5 b6 b7].
  cbn [RefLibs.enc_str RefLibs.enc_char RefLibs.nospace]. rewrite IH.
  now destruct b0, b1, b2, b3, b4, b5, b6, b7.
Qed.

Lemma ref_nospace_enc_pos (p : positive) (k : string) :
  RefLibs.nospace (RefLibs.enc_pos p k) = RefLibs.nospace k.
Proof.
  induction p as [q IH|q IH|]; cbn [RefLibs.enc_pos RefLibs.nospace];
    [now rewrite IH | now rewrite IH | reflexivity].
Qed.

Lemma ref_nospace_enc_Z (z : Z) (k : string) :
  RefLibs.nospace (RefLibs.enc_Z z k) = RefLibs.nospace k.
Proof.
  destruct z; cbn [RefLibs.enc_Z RefLibs.nospace]; [reflexivity|..];
    now rewrite ref_nospace_enc_pos.
Qed.

Lemma split_nospace (s : string) :
  RefLibs.nospace s = true -> split " " s = [s].
Proof.
  induction s as [|c r IH]; [reflexivity|].
  cbn [RefLibs.nospace split]. intros [Hc Hr]%andb_true_iff.
  apply negb_true_iff in Hc. rewrite Hc, (IH Hr). reflexivity.
Qed.

Lemma ref_libs_spec : LibsSpec RefLibs.libs.
Proof.
  constructor.
  - intros password salt. cbn. unfold RefLibs.compare, RefLibs.hash.
    rewrite ref_dec_enc_str. apply String.eqb_refl.
  - intros payload key now Hexp. cbn. unfold RefLibs.verify.
    rewrite ref_parse_sign, String.eqb_refl. cbn.
    destruct (Z.leb_spec (payload_exp payload) (now / 1000)); [lia | reflexivity].
  - intros payload key. cbn. split.
    + apply split_nospace. unfold RefLibs.sign.
      now rewrite !ref_nospace_enc_str, !ref_nospace_enc_Z.
    + unfold RefLibs.sign. destruct key as [|[] ?]; reflexivity.
Qed.

(** Under the reference hash the empty password verifies only against its
    own hash. *)
Lemma ref_empty_password (password salt : string) :
  password <> "" -> RefLibs.compare "" (RefLibs.hash password salt) = false.
Proof.
  intros Hp. unfold RefLibs.compare, RefLibs.hash. rewrite ref_dec_enc_str.
  now apply String.eqb_neq.
Qed.

(** ** Login and token verification *)

Section AuthProperties.
Context {L : Libs}.

Lemma array_find_Some {A} (p : A -> bool) (xs : list A) (i : nat) (x : A) :
  array_find p xs = Some (i, x) -> xs !! i = Some x /\ p x = true.
Proof.
  unfold array_find. destruct (findIndex p xs) as [j|] eqn:Hj; [|discriminate].
  destruct (findIndex_Some _ _ _ Hj) as (y & Hy & Hp & _).
  rewrite Hy. simpl. now intros [= <- <-].
Qed.

Lemma array_find_is_Some {A} (p : A -> bool) (xs : list A) (x : A) :
  x ∈ xs -> p x = true -> exists i y, array_find p xs = Some (i, y).
Proof.
  intros Hin Hp. destruct (findIndex_is_Some _ _ _ Hin Hp) as [i Hi].
  destruct (findIndex_Some _ _ _ Hi) as (y & Hy & _).
  exists i, y. unfold array_find. now rewrite Hi, Hy.
Qed.

(** What a successful [login] did. *)
Lemma login_Ok (st st' : AuthState) (username : string) (password : jsval)
    (uuid : string) (now : Z) (r : LoginResult) :
  login st username password uuid now = Ok (r, st') ->
  nonempty username = true /\ truthy password = true /\
  exists i usr,
    findUser (users st) username = Some (i, usr) /\
    bcrypt_compare_checked password (user_password usr) = Ok true /\
    users st' = <[i := set_lastLogin now usr]> (users st) /\
    sessions st' = <[uuid := mkSession uuid (user_id usr) (user_username usr) now now true]>
                     (sessions st) /\
    r = mkLoginResult
          (jwt_sign (mkPayload (user_id usr) (user_username usr) uuid (now / 1000)
                       (now / 1000 + 24 * 60 * 60)) SECRET)
          (userInfo (set_lastLogin now usr)) uuid.
Proof.
  unfold login.
  destruct (nonempty username); [|discriminate].
  destruct (truthy password); [|discriminate]. simpl.
  destruct (findUser (users st) username) as [[i usr]|]; [|discriminate].
  destruct (bcrypt_compare_checked password (user_password usr)) as [[]|e] eqn:Hc;
    [|discriminate..]. simpl.
  intros [= <- <-]. split; [reflexivity|]. split; [reflexivity|].
  exists i, usr. repeat split. exact Hc.
Qed.


(** What a successful [signup] did: the checks passed on the store of the
    call, and the user went to the end of the store of the resumption. *)
Lemma signup_Ok (st st' st'' : AuthState) (username : string) (password : jsval)
    (uuid salt : string) (now : Z) (info : UserInfo) :
  signup st st' username password uuid salt now = Ok (info, st'') ->
  exists p,
    password = JStr p /\ p <> "" /\
    nonempty username = true /\
    findUser (users st) username = None /\
    users st'' = users st' ++ [mkUser uuid username (bcrypt_hash p salt) now None true] /\
    sessions st'' = sessions st' /\
    info = userInfo (mkUser uuid username (bcrypt_hash p salt) now None true).
Proof.
  unfold signup.
  destruct (nonempty username) eqn:Hu; [|discriminate].
  destruct (truthy password) eqn:Hp; [|discriminate]. cbn [negb orb].
  destruct (findUser (users st) username); [discriminate|].
  destruct password as [| |b|n|p|xs|]; try discriminate. cbn.
  intros [= <- <-]. exists p. repeat split.
  intros ->. discriminate.
Qed.

(** Every user [signup] stores is active, and [login] keeps the flag. *)
Lemma signup_users_active (st st' st'' : AuthState) (username : string)
    (password : jsval) (uuid salt : string) (now : Z) (info : UserInfo) :
  (forall usr, usr ∈ users st' -> user_isActive usr = true) ->
  signup st st' username password uuid salt now = Ok (info, st'') ->
  forall usr, usr ∈ users st'' -> user_isActive usr = true.
Proof.
  intros Hact (p & _ & _ & _ & _ & Hus & _)%signup_Ok usr.
  rewrite Hus, elem_of_app, list_elem_of_singleton.
  intros [Hin | ->]; [now apply Hact | reflexivity].
Qed.

Lemma login_users_active (st st' : AuthState) (username : string) (password : jsval)
    (uuid : string) (now : Z) (r : LoginResult) :
  (forall usr, usr ∈ users st -> user_isActive usr = true) ->
  login st username password uuid now = Ok (r, st') ->
  forall usr, usr ∈ users st' -> user_isActive usr = true.
Proof.
  intros Hact (_ & _ & i & u & Hf & _ & Hus & _)%login_Ok usr.
  rewrite Hus. intros [-> | (k & _ & Hk)]%elem_of_insert_inv.
  - cbn. apply array_find_Some in Hf as [Hf _].
    apply Hact, list_elem_of_lookup. eauto.
  - apply Hact, list_elem_of_lookup. eauto.
Qed.

Lemma built_users (st : AuthState) :
  built st -> forall usr, usr ∈ users st -> signed_up usr.
Proof.
  induction 1 as [|st st' u p uuid salt now info st'' _ _ _ IH' Hs
                  |st u p uuid now r st' _ IH Hl
                  |st sid _ IH|st sid now _ IH|st now _ IH].
  - intros usr Hin. cbn in Hin. now apply elem_of_nil in Hin.
  - apply signup_Ok in Hs as (q & _ & Hq & Hu & _ & Hus & _).
    intros usr. rewrite Hus, elem_of_app, list_elem_of_singleton.
    intros [Hin | ->]; [now apply IH'|].
    split; [reflexivity|]. split; [exact Hu|]. now exists q, salt.
  - apply login_Ok in Hl as (_ & _ & i & usr0 & Hf & _ & Hus & _).
    apply array_find_Some in Hf as [Hf _].
    assert (H0 : signed_up usr0) by (apply IH, list_elem_of_lookup; eauto).
    intros usr. rewrite Hus. intros [-> | (k & _ & Hk)]%elem_of_insert_inv.
    + exact H0.
    + apply IH, list_elem_of_lookup. eauto.
  - exact IH.
  - unfold updateSessionActivity. now destruct (sessions st !! sid).
  - exact IH.
Qed.

(** On a reachable store the empty password verifies against no stored hash,
    for a library under which it does not verify against the hash of a
    non-empty password. *)
Lemma built_empty_password (st : AuthState) :
  (forall p salt, p <> "" -> bcrypt_compare "" (bcrypt_hash p salt) = false) ->
  built st ->
  forall usr, usr ∈ users st -> bcrypt_compare "" (user_password usr) = false.
Proof.
  intros Hlib Hb usr Hin.
  destruct (built_users st Hb usr Hin) as (_ & _ & p & salt & Hp & ->).
  now apply Hlib.
Qed.


(** A failed [login] with a string for password says the same whatever the
    store holds: the text of the error is fixed by the request alone. *)
Lemma login_error_store_independent (st1 st2 : AuthState)
    (username password uuid1 uuid2 : string) (now1 now2 : Z) (e1 e2 : exn) :
  login st1 username (JStr password) uuid1 now1 = Throw e1 ->
  login st2 username (JStr password) uuid2 now2 = Throw e2 ->
  e1 = e2.
Proof.
  unfold login.
  destruct (negb (nonempty username) || negb (truthy (JStr password))); simpl;
    [congruence|].
  destruct (findUser (users st1) username) as [[i1 usr1]|];
    [destruct (negb (bcrypt_compare password (user_password usr1)))|];
    simpl; try discriminate;
  (destruct (findUser (users st2) username) as [[i2 usr2]|];
    [destruct (negb (bcrypt_compare password (user_password usr2)))|];
    simpl; try discriminate; congruence).
Qed.

(** When both passwords are strings, a login with a username nobody has and
    a login with the username of a user but a password that does not compare
    equal to the stored hash fail with the same error. *)
Lemma login_failure_same_for_strings (st : AuthState)
    (u1 p1 uuid1 u2 p2 uuid2 : string) (now1 now2 : Z) (i : nat) (usr : User) :
  nonempty u1 = true -> nonempty p1 = true ->
  nonempty u2 = true -> nonempty p2 = true ->
  findUser (users st) u1 = None ->
  findUser (users st) u2 = Some (i, usr) ->
  bcrypt_compare p2 (user_password usr) = false ->
  login st u1 (JStr p1) uuid1 now1 = Throw (Error "Invalid username or password") /\
  login st u2 (JStr p2) uuid2 now2 = Throw (Error "Invalid username or password").
Proof.
  intros Hu1 Hp1 Hu2 Hp2 Hnone Hsome Hbad. unfold login, nonempty in *. cbn.
  now rewrite Hu1, Hp1, Hu2, Hp2, Hnone, Hsome, Hbad.
Qed.

(** C4 fails for a password that is not a string.  [login] hands the
    password of the request to [bcrypt.compare] unchecked, and only once
    [findUser] has found the user: for a truthy password that is not a string
    (a number, [true], an array, an object) the attempt on an unknown
    username fails with "Invalid username or password", the attempt on an
    existing username with bcryptjs' "Illegal arguments: .., string", so the
    content of the error tells whether the username exists. *)
Theorem login_error_reveals_username (st : AuthState) (u1 u2 : string)
    (password : jsval) (uuid1 uuid2 : string) (now1 now2 : Z) (i : nat) (usr : User) :
  nonempty u1 = true -> nonempty u2 = true ->
  truthy password = true -> typeof password <> "string" ->
  findUser (users st) u1 = None ->
  findUser (users st) u2 = Some (i, usr) ->
  bcrypt_compare_checked password (user_password usr) <> Ok true /\
  login st u1 password uuid1 now1 = Throw (Error "Invalid username or password") /\
  login st u2 password uuid2 now2
  = Throw (Error (String.append "Illegal arguments: "
                    (String.append (typeof password) ", string"))) /\
  login st u1 password uuid1 now1 <> login st u2 password uuid2 now2.
Proof.
  intros Hu1 Hu2 Hp Hty Hnone Hsome.
  assert (Hc : bcrypt_compare_checked password (user_password usr)
               = Throw (Error (String.append "Illegal arguments: "
                                 (String.append (typeof password) ", string")))).
  { destruct password; try reflexivity. now contradict Hty. }
  assert (H1 : login st u1 password uuid1 now1
               = Throw (Error "Invalid username or password")).
  { unfold login. now rewrite Hu1, Hp, Hnone. }
  assert (H2 : login st u2 password uuid2 now2
               = Throw (Error (String.append "Illegal arguments: "
                                 (String.append (typeof password) ", string")))).
  { unfold login. rewrite Hu2, Hp, Hsome. cbn [negb orb]. now rewrite Hc. }
  split; [rewrite Hc; discriminate|]. split; [exact H1|]. split; [exact H2|].
  rewrite H1, H2. discriminate.
Qed.

(** C10: [verifyTokenSync] returns on every token text, with a payload that
    the token library accepted or with [null], and never throws; the
    protected-route middleware therefore answers 401 or 403 or hands the
    request on, and never takes its "Authentication error" branch. *)
Theorem verifyTokenSync_total (st : AuthState) (token : string) (now : Z) (h : Headers) :
  match verifyTokenSync st token now with
  | Ok (Some payload) => jwt_verify token SECRET now = Ok payload
  | Ok None => True
  | Throw _ => False
  end /\
  match fst (requireAuth st h now) with
  | Status code _ => code = 401 \/ code = 403
  | Next _ => True
  end.
Proof.
  split.
  - unfold verifyTokenSync. destruct (jwt_verify token SECRET now) as [payload|e]; simpl; [|exact I].
    destruct (findUserById (users st) (payload_id payload)) as [[j u]|]; simpl; [|exact I].
    now destruct (user_isActive u).
  - unfold requireAuth. destruct (bearer_token h) as [tok|]; simpl; [|now left].
    unfold verifyTokenSync. destruct (jwt_verify tok SECRET now) as [payload|e]; simpl; [|now right].
    destruct (findUserById (users st) (payload_id payload)) as [[j u]|]; simpl; [|now right].
    destruct (user_isActive u); simpl; [exact I | now right].
Qed.

End AuthProperties.

(** ** Tokens and revoked sessions *)

Section Revocation.
Context {L : Libs} {HL : LibsSpec L}.

Lemma split_bearer (token : string) :
  split " " (String.append "Bearer " token) = "Bearer" :: split " " token.
Proof. reflexivity. Qed.

Lemma bearer_token_word (h : Headers) (token : string) :
  authorization h = Some (String.append "Bearer " token) ->
  split " " token = [token] -> nonempty token = true ->
  bearer_token h = Some token.
Proof.
  intros Hh Hword Hne. unfold bearer_token. rewrite Hh.
  rewrite split_bearer, Hword. cbn [lookup list_lookup]. now rewrite Hne.
Qed.

(** C1, amended: revoking a session removes it from the registry, but
    authentication does not look the session up: a token that [login] issued
    for the session is still accepted after the logout, at any time before
    its 24-hour expiry at which its user is present and active. *)
Theorem token_outlives_session (st st1 : AuthState) (username : string)
    (password : jsval) (uuid : string) (now t : Z) (r : LoginResult) (h : Headers) :
  (forall usr, usr ∈ users st -> user_isActive usr = true) ->
  login st username password uuid now = Ok (r, st1) ->
  authorization h = Some (String.append "Bearer " (login_token r)) ->
  t / 1000 < now / 1000 + 24 * 60 * 60 ->
  let st2 := snd (logout st1 (login_sessionId r)) in
  sessions st1 !! login_sessionId r <> None /\
  sessions st2 !! login_sessionId r = None /\
  exists payload st3,
    requireAuth st2 h t = (Next payload, st3) /\
    payload_sessionId payload = login_sessionId r /\
    payload_id payload = info_id (login_user r).
Proof.
  intros Hactive Hlogin Hh Ht.
  apply login_Ok in Hlogin as (_ & _ & i & usr & Hf & _ & Hus & Hss & ->).
  cbn [login_sessionId login_token login_user] in *. cbv zeta.
  split; [rewrite Hss, lookup_insert_eq; discriminate|].
  split; [cbn; apply lookup_delete_eq|].
  set (payload := mkPayload (user_id usr) (user_username usr) uuid (now / 1000)
                    (now / 1000 + 24 * 60 * 60)) in *.
  destruct (jwt_sign_word payload SECRET) as [Hword Hne].
  apply array_find_Some in Hf as [Hi _].
  assert (Hin : set_lastLogin now usr ∈ users st1).
  { rewrite Hus. apply list_elem_of_lookup. exists i.
    apply list_lookup_insert_eq. now apply lookup_lt_Some in Hi. }
  destruct (array_find_is_Some (fun u => String.eqb (user_id u) (payload_id payload))
              (users st1) _ Hin) as (j & u' & Hj); [apply String.eqb_refl|].
  assert (Hu' : user_isActive u' = true).
  { apply array_find_Some in Hj as [Hj _].
    assert (Hin' : u' ∈ users st1) by (apply list_elem_of_lookup; eauto).
    rewrite Hus in Hin'. apply elem_of_insert_inv in Hin' as [-> | (k & _ & Hk)].
    - cbn. apply Hactive, list_elem_of_lookup. eauto.
    - apply Hactive, list_elem_of_lookup. eauto. }
  unfold requireAuth. rewrite (bearer_token_word h _ Hh Hword Hne).
  unfold verifyTokenSync. rewrite (jwt_verify_sign payload SECRET t Ht). cbn [bind try_catch].
  unfold findUserById. cbn [users logout snd]. rewrite Hj, Hu'. cbn.
  eauto.
Qed.

End Revocation.

(** ** Concrete runs with the reference libraries *)

#[local] Existing Instance RefLibs.libs.



Lemma login_error_reveals_username_witness :
  login aliceSignedUp "ghost" (JNum 5) "s-1" 5000
  = Throw (Error "Invalid username or password") /\
  login aliceSignedUp "alice" (JNum 5) "s-2" 6000
  = Throw (Error "Illegal arguments: number, string").
Proof.
  destruct (login_error_reveals_username aliceSignedUp "ghost" "alice" (JNum 5)
              "s-1" "s-2" 5000 6000 0%nat
              (mkUser "u-1" "alice" (RefLibs.hash "pw1" "salt") 1000 None true))
    as (_ & H1 & H2 & _);
    [reflexivity | reflexivity | reflexivity | discriminate
    | reflexivity | reflexivity |].
  split; [exact H1 | exact H2].
Defined.

(** C1, as stated, fails: alice signs up, logs in and logs out through the
    logout route; her session is gone from the registry, and the token of
    that session still passes the protected-route middleware. *)
Lemma revoked_session_token_accepted :
  login_sessionId (fst aliceLogin) = "s-1" /\
  payload_sessionId (mkPayload "u-1" "alice" "s-1" 5 86405) = "s-1" /\
  jwt_sign (mkPayload "u-1" "alice" "s-1" 5 86405) SECRET = login_token (fst aliceLogin) /\
  sessions (snd aliceLogin) !! "s-1" <> None /\
  snd (logoutRoute (snd aliceLogin) aliceHeaders 5500)
  = snd (logout (snd aliceLogin) "s-1") /\
  sessions (snd (logout (snd aliceLogin) "s-1")) !! "s-1" = None /\
  fst (requireAuth (snd (logout (snd aliceLogin) "s-1")) aliceHeaders 6000)
  = Next (mkPayload "u-1" "alice" "s-1" 5 86405).
Proof.
  repeat split; try (vm_compute; reflexivity). vm_compute. discriminate.
Qed.

Lemma token_outlives_session_witness :
  exists payload st3,
    requireAuth (snd (logout (snd aliceLogin) "s-1")) aliceHeaders 6000
    = (Next payload, st3) /\
    payload_sessionId payload = "s-1".
Proof.
  destruct (token_outlives_session (HL := ref_libs_spec) aliceSignedUp (snd aliceLogin)
              "alice" (JStr "pw1") "s-1" 5000 6000 (fst aliceLogin) aliceHeaders)
    as (_ & _ & payload & st3 & Hreq & Hsid & _).
  - intros usr Husr. apply list_elem_of_singleton in Husr as ->. reflexivity.
  - reflexivity.
  - reflexivity.
  - reflexivity.
  - exists payload, st3. split; [exact Hreq | exact Hsid].
Defined.

(** ** Rate limiting *)

Lemma ceil_div_bounds (x : Z) :
  0 <= x <= 300000 -> 0 <= ceil_div x 1000 <= 300.
Proof.
  intros Hx. unfold ceil_div.
  pose proof (Z.div_mod (- x) 1000 ltac:(lia)) as Hdm.
  pose proof (Z.mod_pos_bound (- x) 1000 ltac:(lia)) as Hm.
  lia.
Qed.

Lemma rateLimit_fresh (maxRequests windowMs : Z) (m : gmap string RateWindow)
    (c : string) (now : Z) :
  match m !! c with
  | None => True
  | Some w => resetTime w < now
  end ->
  rateLimit maxRequests windowMs m c now
  = (Pass, <[c := mkRateWindow 1 (now + windowMs)]> m).
Proof.
  unfold rateLimit. destruct (m !! c) as [w|]; [|reflexivity].
  intros Hw. apply Z.ltb_lt in Hw. now rewrite Hw.
Qed.

Lemma rateLimit_within (maxRequests windowMs : Z) (m : gmap string RateWindow)
    (c : string) (now k reset : Z) :
  m !! c = Some (mkRateWindow k reset) -> now <= reset -> k < maxRequests ->
  rateLimit maxRequests windowMs m c now
  = (Pass, <[c := mkRateWindow (k + 1) reset]> m).
Proof.
  unfold rateLimit. intros -> Hnow Hk. cbn.
  destruct (Z.ltb_spec reset now); [lia|].
  destruct (Z.leb_spec maxRequests k); [lia | reflexivity].
Qed.

Lemma rateLimit_exhausted (maxRequests windowMs : Z) (m : gmap string RateWindow)
    (c : string) (now k reset : Z) :
  m !! c = Some (mkRateWindow k reset) -> now <= reset -> maxRequests <= k ->
  rateLimit maxRequests windowMs m c now
  = (TooManyRequests (ceil_div (reset - now) 1000), m).
Proof.
  unfold rateLimit. intros -> Hnow Hk. cbn.
  destruct (Z.ltb_spec reset now); [lia|].
  destruct (Z.leb_spec maxRequests k); [reflexivity | lia].
Qed.

(** [Math.ceil(x / 1000)] is the least number of whole seconds that covers
    [x] milliseconds. *)
Lemma ceil_div_least (x : Z) :
  1000 * (ceil_div x 1000 - 1) < x <= 1000 * ceil_div x 1000.
Proof.
  unfold ceil_div.
  pose proof (Z.div_mod (- x) 1000 ltac:(lia)) as Hdm.
  pose proof (Z.mod_pos_bound (- x) 1000 ltac:(lia)) as Hm.
  lia.
Qed.

(** C5: with maxRequests=5 and windowMs=300000, when a client's request at
    [t1] opens a window (the client is new, or its previous window is over),
    the reset time of the window is [t1 + 300000]; that request and the next
    four inside the window pass; the sixth inside the window, at [t6], is
    rejected and nothing is written.  Its retryAfter is
    ceil((resetTime - now)/1000), the one whole number of seconds [r] with
    1000 (r - 1) < resetTime - t6 <= 1000 r, and it lies between 0 and 300.
    A request after the reset time passes and opens a new window with
    count 1. *)
Theorem rateLimit_window (m : gmap string RateWindow) (c : string)
    (t1 t2 t3 t4 t5 t6 : Z) :
  match m !! c with
  | None => True
  | Some w => resetTime w < t1
  end ->
  t1 <= t2 <= t1 + 300000 -> t1 <= t3 <= t1 + 300000 ->
  t1 <= t4 <= t1 + 300000 -> t1 <= t5 <= t1 + 300000 ->
  t1 <= t6 <= t1 + 300000 ->
  exists m5 retryAfter,
    serve 5 300000 m c [t1; t2; t3; t4; t5] = ([Pass; Pass; Pass; Pass; Pass], m5) /\
    m5 !! c = Some (mkRateWindow 5 (t1 + 300000)) /\
    rateLimit 5 300000 m5 c t6 = (TooManyRequests retryAfter, m5) /\
    1000 * (retryAfter - 1) < t1 + 300000 - t6 <= 1000 * retryAfter /\
    0 <= retryAfter <= 300 /\
    forall t7, t1 + 300000 < t7 ->
      rateLimit 5 300000 m5 c t7
      = (Pass, <[c := mkRateWindow 1 (t7 + 300000)]> m5).
Proof.
  intros H1 H2 H3 H4 H5 H6.
  eexists. exists (ceil_div (t1 + 300000 - t6) 1000). split.
  - cbn [serve]. rewrite (rateLimit_fresh 5 300000 m c t1 H1).
    rewrite (rateLimit_within 5 300000 _ c t2 1 (t1 + 300000));
      [|apply lookup_insert_eq|lia|lia].
    rewrite (rateLimit_within 5 300000 _ c t3 2 (t1 + 300000));
      [|apply lookup_insert_eq|lia|lia].
    rewrite (rateLimit_within 5 300000 _ c t4 3 (t1 + 300000));
      [|apply lookup_insert_eq|lia|lia].
    rewrite (rateLimit_within 5 300000 _ c t5 4 (t1 + 300000));
      [|apply lookup_insert_eq|lia|lia].
    reflexivity.
  - split; [apply lookup_insert_eq|]. split.
    + apply (rateLimit_exhausted 5 300000 _ c t6 5 (t1 + 300000));
        [apply lookup_insert_eq|lia|lia].
    + split; [apply ceil_div_least|].
      split; [apply ceil_div_bounds; lia|].
      intros t7 Ht7. apply rateLimit_fresh. rewrite lookup_insert_eq. cbn. lia.
Qed.

Lemma rateLimit_window_witness :
  exists m5,
    serve 5 300000 ∅ "10.0.0.1" [1000; 2000; 3000; 4000; 5000]
    = ([Pass; Pass; Pass; Pass; Pass], m5) /\
    rateLimit 5 300000 m5 "10.0.0.1" 6500 = (TooManyRequests 295, m5) /\
    rateLimit 5 300000 m5 "10.0.0.1" 301001
    = (Pass, <["10.0.0.1" := mkRateWindow 1 601001]> m5).
Proof.
  destruct (rateLimit_window ∅ "10.0.0.1" 1000 2000 3000 4000 5000 6500)
    as (m5 & r & Hserve & _ & Hsix & Hr & _ & Hnext); try (cbn; lia).
  - rewrite lookup_empty. exact I.
  - assert (r = 295) as -> by lia.
    exists m5. split; [exact Hserve|]. split; [exact Hsix|].
    apply (Hnext 301001). lia.
Defined.

(** * Further properties of the code *)

(** ** The note store *)

(** The stages of [listNotes]: the search may throw, the filter and the sort
    cannot. *)
Lemma listNotes_stages (notes : list Note) (userId : string) (search filter : jsval)
    (now : Z) :
  listNotes notes userId (mkListOptions search filter) now
  = match listNotes notes userId (mkListOptions search JUndefined) now with
    | Ok _ =>
        Ok (array_sort by_updated_desc
              (List.filter (selected userId (mkListOptions search filter) now) notes))
    | Throw e => Throw e
    end.
Proof.
  destruct (listNotes notes userId (mkListOptions search JUndefined) now) as [l0|e] eqn:H0.
  - destruct (listNotes notes userId (mkListOptions search filter) now) as [l|e] eqn:H.
    + now rewrite (listNotes_Ok _ _ _ _ _ H).
    + exfalso. revert H0 H. unfold listNotes. cbn [opt_search opt_filter].
      destruct (truthy search); cbn; [|discriminate].
      destruct (toLowerCase search) as [sl|]; cbn; [|discriminate].
      destruct (array_filter (search_hit sl) _); cbn; discriminate.
  - revert H0. unfold listNotes. cbn [opt_search opt_filter].
    destruct (truthy search); cbn; [|discriminate].
    destruct (toLowerCase search) as [sl|]; cbn; [|easy].
    destruct (array_filter (search_hit sl) _); cbn; [discriminate | easy].
Qed.

(** X1: whatever the search and the filter, every note [listNotes] returns is
    a note of the store that the caller owns and that is not soft-deleted. *)
Theorem listNotes_only_own_live (notes : list Note) (userId : string)
    (options : ListOptions) (now : Z) (l : list Note) :
  listNotes notes userId options now = Ok l ->
  forall n, n ∈ l ->
    n ∈ notes /\ note_owner n = userId /\ note_isDeleted n = false.
Proof.
  intros [Hperm _]%listNotes_sound n Hn. rewrite Hperm in Hn.
  apply list_elem_of_In, List.filter_In in Hn as [Hn Hsel].
  split; [now apply list_elem_of_In|].
  unfold selected, owned_live in Hsel.
  apply andb_true_iff in Hsel as [Hsel _]. apply andb_true_iff in Hsel as [Hsel _].
  apply andb_true_iff in Hsel as [Ho Hd].
  split; [now apply String.eqb_eq | now apply negb_true_iff].
Qed.

Lemma listNotes_only_own_live_witness :
  sampleNote ∈ [sampleNote] /\ note_owner sampleNote = "u1" /\
  note_isDeleted sampleNote = false.
Proof.
  apply (listNotes_only_own_live [sampleNote] "u1"
           (mkListOptions (JStr "a") (JStr "private")) 2000 [sampleNote]).
  - reflexivity.
  - apply list_elem_of_here.
Defined.

Lemma filter_split_perm {A} (f g : A -> bool) (xs : list A) :
  List.filter (fun x => f x && g x) xs ++ List.filter (fun x => f x && negb (g x)) xs
  ≡ₚ List.filter f xs.
Proof.
  induction xs as [|x r IH]; cbn; [reflexivity|].
  destruct (f x), (g x); cbn; rewrite <- ?IH; try reflexivity.
  symmetry. apply Permutation_middle.
Qed.

(** X2: for one search term, the listing filtered by "public" and the
    listing filtered by "private" together hold exactly the notes of the
    listing without a filter, each once; and they return whenever that one
    does. *)
Theorem listNotes_public_private_partition (notes : list Note) (userId : string)
    (search : jsval) (now : Z) (all : list Note) :
  listNotes notes userId (mkListOptions search JUndefined) now = Ok all ->
  exists pub priv,
    listNotes notes userId (mkListOptions search (JStr "public")) now = Ok pub /\
    listNotes notes userId (mkListOptions search (JStr "private")) now = Ok priv /\
    pub ++ priv ≡ₚ all /\
    (forall n, n ∈ pub -> truthy (note_isPublic n) = true) /\
    (forall n, n ∈ priv -> truthy (note_isPublic n) = false).
Proof.
  intros Hall.
  pose proof (listNotes_stages notes userId search (JStr "public") now) as Hp.
  pose proof (listNotes_stages notes userId search (JStr "private") now) as Hq.
  rewrite Hall in Hp, Hq. apply listNotes_Ok in Hall.
  do 2 eexists. split; [exact Hp|]. split; [exact Hq|].
  set (base := selected userId (mkListOptions search JUndefined) now).
  assert (Epub : forall n, selected userId (mkListOptions search (JStr "public")) now n
                           = base n && truthy (note_isPublic n)).
  { intros n. unfold base, selected. cbn. now rewrite andb_true_r. }
  assert (Epriv : forall n, selected userId (mkListOptions search (JStr "private")) now n
                            = base n && negb (truthy (note_isPublic n))).
  { intros n. unfold base, selected. cbn. now rewrite andb_true_r. }
  rewrite (List.filter_ext _ _ Epub), (List.filter_ext _ _ Epriv).
  split; [|split].
  - rewrite !array_sort_perm, Hall, array_sort_perm. apply filter_split_perm.
  - intros n Hn. rewrite array_sort_perm in Hn.
    apply list_elem_of_In, List.filter_In in Hn as [_ Hn].
    now apply andb_true_iff in Hn as [_ Hn].
  - intros n Hn. rewrite array_sort_perm in Hn.
    apply list_elem_of_In, List.filter_In in Hn as [_ Hn].
    apply andb_true_iff in Hn as [_ Hn]. now apply negb_true_iff.
Qed.

Lemma listNotes_public_private_partition_witness :
  exists pub priv,
    listNotes [sampleNote] "u1" (mkListOptions JUndefined (JStr "public")) 2000 = Ok pub /\
    listNotes [sampleNote] "u1" (mkListOptions JUndefined (JStr "private")) 2000 = Ok priv /\
    pub ++ priv ≡ₚ [sampleNote].
Proof.
  destruct (listNotes_public_private_partition [sampleNote] "u1" JUndefined 2000
              [sampleNote] eq_refl) as (pub & priv & Hp & Hq & Hperm & _).
  exists pub, priv. split; [exact Hp|]. split; [exact Hq | exact Hperm].
Defined.

Lemma sort_insert_stable (t : Z) (x : Note) (xs : list Note) :
  List.filter (updated_at t) (sort_insert by_updated_desc x xs)
  = List.filter (updated_at t) (x :: xs).
Proof.
  induction xs as [|y r IH]; [reflexivity|].
  cbn [sort_insert]. unfold by_updated_desc at 1.
  destruct (Z.leb_spec (note_updatedAt y - note_updatedAt x) 0) as [Hle|Hgt]; [reflexivity|].
  cbn [List.filter]. rewrite IH. cbn [List.filter]. unfold updated_at.
  destruct (Z.eqb_spec (note_updatedAt y) t), (Z.eqb_spec (note_updatedAt x) t);
    try reflexivity; lia.
Qed.

Lemma array_sort_stable (t : Z) (xs : list Note) :
  List.filter (updated_at t) (array_sort by_updated_desc xs)
  = List.filter (updated_at t) xs.
Proof.
  induction xs as [|x r IH]; [reflexivity|].
  change (array_sort by_updated_desc (x :: r))
    with (sort_insert by_updated_desc x (array_sort by_updated_desc r)).
  rewrite sort_insert_stable. cbn [List.filter]. now rewrite IH.
Qed.

(** X3: the ordering of [listNotes] is stable: the returned notes that share
    one last-update time come in the order in which the store holds them. *)
Theorem listNotes_stable (notes : list Note) (userId : string) (options : ListOptions)
    (now : Z) (l : list Note) :
  listNotes notes userId options now = Ok l ->
  forall t,
    List.filter (updated_at t) l
    = List.filter (updated_at t) (List.filter (selected userId options now) notes).
Proof.
  intros ->%listNotes_Ok t. apply array_sort_stable.
Qed.

Lemma listNotes_stable_witness :
  List.filter (updated_at 1000) [sampleNote; sampleTwin] = [sampleNote; sampleTwin].
Proof.
  apply (listNotes_stable [sampleNote; sampleTwin] "u1"
           (mkListOptions JUndefined JUndefined) 2000 [sampleNote; sampleTwin] eq_refl 1000).
Defined.

(** X4: a filter value other than "public", "private" and "recent" (an
    unknown name, or a value that is not a string) is ignored without an
    error: the listing is the one without a filter. *)
Theorem listNotes_unknown_filter (notes : list Note) (userId : string)
    (search filter : jsval) (now : Z) :
  filter <> JStr "public" -> filter <> JStr "private" -> filter <> JStr "recent" ->
  listNotes notes userId (mkListOptions search filter) now
  = listNotes notes userId (mkListOptions search JUndefined) now.
Proof.
  intros Hpub Hpriv Hrec.
  assert (Hkeep : forall n, filter_keep filter now n = true).
  { intros n. unfold filter_keep. destruct (truthy filter); [|reflexivity].
    destruct filter as [| | | |f| |]; try reflexivity.
    destruct (String.eqb_spec f "public") as [->|_]; [congruence|].
    destruct (String.eqb_spec f "private") as [->|_]; [congruence|].
    destruct (String.eqb_spec f "recent") as [->|_]; [congruence | reflexivity]. }
  rewrite (listNotes_stages notes userId search filter now).
  destruct (listNotes notes userId (mkListOptions search JUndefined) now) as [l|e] eqn:H;
    [|reflexivity].
  apply listNotes_Ok in H. rewrite H. do 2 f_equal.
  apply List.filter_ext. intros n. unfold selected. cbn [opt_search opt_filter].
  now rewrite Hkeep.
Qed.

Lemma listNotes_unknown_filter_witness :
  listNotes [sampleNote] "u1" (mkListOptions JUndefined (JStr "archived")) 2000
  = listNotes [sampleNote] "u1" (mkListOptions JUndefined JUndefined) 2000.
Proof.
  apply (listNotes_unknown_filter [sampleNote] "u1" JUndefined (JStr "archived") 2000);
    discriminate.
Defined.

Lemma getNote_in_place (notes notes' : list Note) (userId noteId : string)
    (r : option Note) :
  getNote notes userId noteId = Ok (r, notes') -> in_place_change userId noteId notes notes'.
Proof.
  unfold getNote. destruct (findIndex (live_match userId noteId) notes) as [i|] eqn:Hi; cbn.
  - destruct (findIndex_Some _ _ _ Hi) as (n & Hn & Hl & _). rewrite Hn.
    intros [= <- <-]. right. exists i, n, (bump_views n). repeat split; auto.
  - intros [= <- <-]. now left.
Qed.

Lemma updateNote_in_place (notes notes' : list Note) (userId noteId : string)
    (updateData : gmap string jsval) (now : Z) (r : option Note) :
  updateNote notes userId noteId updateData now = Ok (r, notes') ->
  in_place_change userId noteId notes notes'.
Proof.
  unfold updateNote. destruct (findIndex (live_match userId noteId) notes) as [i|] eqn:Hi; cbn.
  - destruct (findIndex_Some _ _ _ Hi) as (n & Hn & Hl & _). rewrite Hn.
    intros [= <- <-]. right.
    exists i, n, (touch_updated now (apply_updates updateData n)).
    split; [exact Hn|]. split; [exact Hl|]. split; [reflexivity|].
    rewrite apply_updates_eq. repeat split.
  - intros [= <- <-]. now left.
Qed.

Lemma deleteNote_in_place (notes notes' : list Note) (userId noteId : string)
    (now : Z) (b : bool) :
  deleteNote notes userId noteId now = Ok (b, notes') ->
  in_place_change userId noteId notes notes'.
Proof.
  unfold deleteNote. destruct (findIndex (live_match userId noteId) notes) as [i|] eqn:Hi; cbn.
  - destruct (findIndex_Some _ _ _ Hi) as (n & Hn & Hl & _). rewrite Hn.
    intros [= <- <-]. right. exists i, n, (soft_delete now n). repeat split; auto.
  - intros [= <- <-]. now left.
Qed.

Lemma in_place_change_frame (userId noteId : string) (notes notes' : list Note) :
  in_place_change userId noteId notes notes' ->
  length notes' = length notes /\
  note_identity <$> notes' = note_identity <$> notes /\
  forall j n, notes !! j = Some n ->
    note_id n <> noteId \/ note_owner n <> userId \/ note_isDeleted n = true ->
    notes' !! j = Some n.
Proof.
  intros [-> | (i & n0 & n' & Hi & Hl & -> & Hid & Ho & Hc)]; [auto|].
  split; [apply length_insert|]. split.
  - rewrite list_fmap_insert. apply list_insert_id.
    rewrite list_lookup_fmap, Hi. cbn. unfold note_identity. now rewrite Hid, Ho, Hc.
  - intros j n Hj Hn. destruct (decide (i = j)) as [->|Hne].
    + exfalso. rewrite Hi in Hj. injection Hj as <-.
      apply live_match_true in Hl as (? & ? & ?). destruct Hn as [?|[?|?]]; congruence.
    + now rewrite list_lookup_insert_ne.
Qed.

(** X5: reading, updating or deleting the note [noteId] as [userId] leaves
    every other stored note exactly as it was, at its position: the notes of
    other owners, the caller's notes with another identifier, and every
    soft-deleted note. *)
Theorem note_operations_frame (notes : list Note) (userId noteId : string)
    (updateData : gmap string jsval) (now : Z) (j : nat) (n : Note) :
  notes !! j = Some n ->
  note_id n <> noteId \/ note_owner n <> userId \/ note_isDeleted n = true ->
  (forall r notes', getNote notes userId noteId = Ok (r, notes') -> notes' !! j = Some n) /\
  (forall r notes', updateNote notes userId noteId updateData now = Ok (r, notes') ->
     notes' !! j = Some n) /\
  (forall b notes', deleteNote notes userId noteId now = Ok (b, notes') ->
     notes' !! j = Some n).
Proof.
  intros Hj Hn. repeat split; intros r notes' H.
  - apply getNote_in_place, in_place_change_frame in H as (_ & _ & H). eauto.
  - apply updateNote_in_place, in_place_change_frame in H as (_ & _ & H). eauto.
  - apply deleteNote_in_place, in_place_change_frame in H as (_ & _ & H). eauto.
Qed.

Lemma note_operations_frame_witness :
  [sampleNote; soft_delete 3000 sampleTwin] !! 0%nat = Some sampleNote.
Proof.
  destruct (note_operations_frame [sampleNote; sampleTwin] "u1" "n2" ∅ 3000 0 sampleNote)
    as (_ & _ & Hdel); [reflexivity | left; discriminate |].
  apply (Hdel true [sampleNote; soft_delete 3000 sampleTwin]). reflexivity.
Defined.

(** X6: reading, updating and deleting never remove a note from the store and
    never change the identifier, the owner or the creation time of the note
    at any position; in particular a soft-deleted note stays in the store. *)
Theorem note_operations_retain (notes : list Note) (userId noteId : string)
    (updateData : gmap string jsval) (now : Z) :
  (forall r notes', getNote notes userId noteId = Ok (r, notes') ->
     note_identity <$> notes' = note_identity <$> notes) /\
  (forall r notes', updateNote notes userId noteId updateData now = Ok (r, notes') ->
     note_identity <$> notes' = note_identity <$> notes) /\
  (forall b notes', deleteNote notes userId noteId now = Ok (b, notes') ->
     note_identity <$> notes' = note_identity <$> notes).
Proof.
  repeat split; intros r notes' H.
  - now apply getNote_in_place, in_place_change_frame in H as (_ & H & _).
  - now apply updateNote_in_place, in_place_change_frame in H as (_ & H & _).
  - now apply deleteNote_in_place, in_place_change_frame in H as (_ & H & _).
Qed.

Lemma note_operations_retain_witness :
  note_identity <$> [soft_delete 3000 sampleNote] = note_identity <$> [sampleNote].
Proof.
  destruct (note_operations_retain [sampleNote] "u1" "n1" ∅ 3000) as (_ & _ & Hdel).
  apply (Hdel true [soft_delete 3000 sampleNote]). reflexivity.
Defined.

(** X7: [updateNote] on an identifier that no live note of the caller carries
    (absent, owned by someone else, or soft-deleted) returns nothing and
    leaves the store unchanged. *)
Theorem updateNote_not_found (notes : list Note) (userId noteId : string)
    (updateData : gmap string jsval) (now : Z) :
  (forall n, n ∈ notes -> note_id n = noteId ->
     note_owner n <> userId \/ note_isDeleted n = true) ->
  updateNote notes userId noteId updateData now = Ok (None, notes).
Proof.
  intros Hnone. unfold updateNote.
  replace (findIndex (live_match userId noteId) notes) with (@None nat); [reflexivity|].
  symmetry. apply findIndex_None. intros n Hn. apply live_match_false.
  intros (Hid & Ho & Hd). destruct (Hnone n Hn Hid); congruence.
Qed.

Lemma updateNote_not_found_witness :
  updateNote [soft_delete 3000 sampleNote] "u1" "n1" (<["title" := JStr "T"]> ∅) 4000
  = Ok (None, [soft_delete 3000 sampleNote]).
Proof.
  apply updateNote_not_found.
  intros n Hn _. apply list_elem_of_singleton in Hn as ->. now right.
Defined.

Lemma findIndex_app_last {A} (p : A -> bool) (xs : list A) (y : A) :
  (forall x, x ∈ xs -> p x = false) -> p y = true ->
  findIndex p (xs ++ [y]) = Some (length xs).
Proof.
  induction xs as [|x r IH]; intros Hxs Hy; cbn.
  - now rewrite Hy.
  - rewrite (Hxs x (list_elem_of_here _ _)), IH; [reflexivity| |exact Hy].
    intros z Hz. apply Hxs. now apply list_elem_of_further.
Qed.

(** X8: a note created under a fresh identifier is found by its owner's next
    [getNote], which returns it with a view count of 1; the same identifier
    asked for by anybody else finds nothing. *)
Theorem createNote_then_getNote (notes notes' : list Note) (uuid userId : string)
    (now : Z) (inp : NoteInput) (note : Note) :
  uuid ∉ (note_id <$> notes) ->
  createNote notes uuid now userId inp = Ok (note, notes') ->
  getNote notes' userId uuid
  = Ok (Some (bump_views note), <[length notes := bump_views note]> notes') /\
  note_views (bump_views note) = 1 /\
  forall other, other <> userId -> getNote notes' other uuid = Ok (None, notes').
Proof.
  intros Hfresh [= <- <-].
  set (note := mkNote uuid userId _ _ _ _ _ _ _ _ _ _).
  assert (Hold : forall who x, x ∈ notes -> live_match who uuid x = false).
  { intros who x Hx. apply live_match_false. intros (Hid & _).
    apply Hfresh. rewrite <- Hid. now apply list_elem_of_fmap_2. }
  split; [|split; [reflexivity|]].
  - unfold getNote. rewrite (findIndex_app_last _ notes note (Hold userId)).
    + rewrite lookup_app_r, Nat.sub_diag by lia. reflexivity.
    + unfold live_match. cbn. now rewrite !String.eqb_refl.
  - intros other Hother. unfold getNote.
    replace (findIndex (live_match other uuid) (notes ++ [note])) with (@None nat);
      [reflexivity|].
    symmetry. apply findIndex_None. intros x [Hx | Hx]%elem_of_app; [now apply Hold|].
    apply list_elem_of_singleton in Hx as ->. unfold live_match. cbn.
    destruct (String.eqb_spec userId other); [congruence|]. now rewrite andb_false_r.
Qed.

Lemma createNote_then_getNote_witness :
  getNote [sampleNote; sampleCreated] "u2" "n9"
  = Ok (Some (bump_views sampleCreated),
        <[1%nat := bump_views sampleCreated]> [sampleNote; sampleCreated]) /\
  note_views (bump_views sampleCreated) = 1 /\
  forall other, other <> "u2" ->
    getNote [sampleNote; sampleCreated] other "n9" = Ok (None, [sampleNote; sampleCreated]).
Proof.
  apply (createNote_then_getNote [sampleNote] [sampleNote; sampleCreated] "n9" "u2" 5000
           (mkNoteInput (JStr "T") (JStr "B") JUndefined JUndefined JUndefined)
           sampleCreated).
  - cbn. intros Hin. apply list_elem_of_singleton in Hin. discriminate.
  - reflexivity.
Defined.

(** ** Accounts and sessions *)

Section AccountProperties.
Context {L : Libs}.

Lemma array_find_app_last {A} (p : A -> bool) (xs : list A) (y : A) :
  (forall x, x ∈ xs -> p x = false) -> p y = true ->
  array_find p (xs ++ [y]) = Some (length xs, y).
Proof.
  intros Hxs Hy. unfold array_find. rewrite (findIndex_app_last p xs y Hxs Hy).
  now rewrite lookup_app_r, Nat.sub_diag by lia.
Qed.

Lemma array_find_None {A} (p : A -> bool) (xs : list A) :
  array_find p xs = None -> forall x, x ∈ xs -> p x = false.
Proof.
  unfold array_find. destruct (findIndex p xs) as [i|] eqn:Hi.
  - destruct (findIndex_Some _ _ _ Hi) as (x & Hx & _). now rewrite Hx.
  - intros _. now apply findIndex_None.
Qed.

(** X9: a username can be registered once: after a successful [signup], a
    second [signup] with the same username (and any password, identifier and
    time) fails with "Username already exists", whatever ran while the first
    one was suspended and whatever runs while the second one would be. *)
Theorem signup_twice_rejected (st st' st1 st2 : AuthState) (username : string)
    (p1 : jsval) (uuid1 salt1 : string) (p2 : jsval) (uuid2 salt2 : string)
    (now1 now2 : Z) (info : UserInfo) :
  signup st st' username p1 uuid1 salt1 now1 = Ok (info, st1) ->
  truthy p2 = true ->
  signup st1 st2 username p2 uuid2 salt2 now2 = Throw (Error "Username already exists").
Proof.
  intros (q & _ & _ & Hu & _ & Hus & _)%signup_Ok Hp2. unfold signup.
  rewrite Hu, Hp2. cbn [negb orb]. unfold findUser.
  destruct (array_find_is_Some (fun u => String.eqb (user_username u) username)
              (users st1) (mkUser uuid1 username (bcrypt_hash q salt1) now1 None true))
    as (i & usr & ->); [| apply String.eqb_refl | reflexivity].
  rewrite Hus, elem_of_app, list_elem_of_singleton. now right.
Qed.

(** X10: a [signup] keeps the usernames of the store unique exactly when the
    username is still free in the store on which it resumes; its own check
    ran before [await bcrypt.hash] and does not see a user pushed since.  So
    two signups for one username that both passed the check are both stored:
    the second resumes on the store the first has pushed to and leaves the
    username there twice.  [login] changes no username. *)
Theorem usernames_unique_unless_raced (st st' st1 : AuthState) (username : string)
    (password : jsval) (uuid salt : string) (now : Z) (info : UserInfo) :
  signup st st' username password uuid salt now = Ok (info, st1) ->
  NoDup (user_username <$> users st') ->
  (NoDup (user_username <$> users st1) <-> findUser (users st') username = None) /\
  (NoDup (user_username <$> users st) ->
   signup st st username password uuid salt now = Ok (info, st1) ->
   NoDup (user_username <$> users st1)) /\
  (forall p2 uuid2 salt2 now2,
     p2 <> "" ->
     exists info2 st2,
       signup st st1 username (JStr p2) uuid2 salt2 now2 = Ok (info2, st2) /\
       ~ NoDup (user_username <$> users st2)) /\
  (forall u p sid now2 r st2,
     login st1 u p sid now2 = Ok (r, st2) ->
     user_username <$> users st2 = user_username <$> users st1).
Proof.
  intros Hs Hnd.
  pose proof Hs as (q & _ & _ & Hu & Hnone & Hus & _)%signup_Ok.
  assert (Happ : forall us new,
            user_username new = username ->
            NoDup (user_username <$> us) ->
            (NoDup (user_username <$> us ++ [new]) <-> findUser us username = None)).
  { intros us new Hnew Hus0. rewrite fmap_app. cbn. rewrite NoDup_app. split.
    - intros (_ & Hdisj & _).
      destruct (findUser us username) as [[i usr]|] eqn:Hf; [|reflexivity].
      apply array_find_Some in Hf as [Hi Hname]. apply String.eqb_eq in Hname.
      exfalso. apply (Hdisj username).
      + apply list_elem_of_fmap. exists usr. split; [now rewrite Hname|].
        apply list_elem_of_lookup. eauto.
      + rewrite Hnew. apply list_elem_of_singleton. reflexivity.
    - intros Hfree. split; [exact Hus0|]. split; [|apply NoDup_singleton].
      intros x Hx Hx'. apply list_elem_of_singleton in Hx'. subst x.
      apply list_elem_of_fmap in Hx as (u & Hux & Hin).
      apply (array_find_None _ _ Hfree) in Hin. cbn in Hin.
      rewrite <- Hux, Hnew, String.eqb_refl in Hin. discriminate. }
  split; [|split; [|split]].
  - rewrite Hus. now apply Happ.
  - intros Hnd0 Hs0.
    pose proof Hs0 as (q0 & _ & _ & _ & Hnone0 & Hus0 & _)%signup_Ok.
    rewrite Hus0. now apply Happ.
  - intros p2 uuid2 salt2 now2 Hp2.
    do 2 eexists. split.
    + unfold signup. rewrite Hu, Hnone. cbn.
      destruct (String.eqb_spec p2 "") as [->|_]; [now contradict Hp2|]. cbn.
      reflexivity.
    + cbn [users]. rewrite Hus, !fmap_app. cbn. intros Hdup.
      apply NoDup_app in Hdup as (_ & Hdisj & _).
      apply (Hdisj username).
      * apply elem_of_app. right. apply list_elem_of_singleton. reflexivity.
      * apply list_elem_of_singleton. reflexivity.
  - intros u p sid now2 r st2 (_ & _ & i & usr & Hf & _ & -> & _)%login_Ok.
    rewrite list_fmap_insert. apply list_insert_id.
    apply array_find_Some in Hf as [Hf _]. now rewrite list_lookup_fmap, Hf.
Qed.

(** X11: [login] opens a session under the identifier it returns: the session
    names the user and carries the time of the call; every other session of
    the registry is as before, and of the users only the last-login time of
    the one who logged in may differ. *)
Theorem login_opens_session (st st' : AuthState) (username : string)
    (password : jsval) (uuid : string) (now : Z) (r : LoginResult) :
  login st username password uuid now = Ok (r, st') ->
  login_sessionId r = uuid /\
  (exists s, getActiveSession st' uuid = Some s /\
             session_userId s = info_id (login_user r) /\
             session_username s = username /\
             session_createdAt s = now /\ session_lastActivity s = now) /\
  (forall sid, sid <> uuid -> getActiveSession st' sid = getActiveSession st sid) /\
  user_identity <$> users st' = user_identity <$> users st.
Proof.
  intros (_ & _ & i & usr & Hf & _ & Hus & Hss & ->)%login_Ok.
  pose proof Hf as [Hi Hname]%array_find_Some. apply String.eqb_eq in Hname.
  split; [reflexivity|]. split; [|split].
  - eexists. unfold getActiveSession. rewrite Hss, lookup_insert_eq.
    split; [reflexivity|]. cbn. auto.
  - intros sid Hsid. unfold getActiveSession. rewrite Hss. now apply lookup_insert_ne.
  - rewrite Hus, list_fmap_insert. apply list_insert_id.
    now rewrite list_lookup_fmap, Hi.
Qed.

(** X12: [logout] answers whether the session was registered, removes that
    session and nothing else, and leaves the users alone; a second [logout] of
    the same session answers [false] and changes nothing. *)
Theorem logout_spec (st : AuthState) (sessionId : string) :
  (fst (logout st sessionId) = true <-> is_Some (getActiveSession st sessionId)) /\
  getActiveSession (snd (logout st sessionId)) sessionId = None /\
  (forall sid, sid <> sessionId ->
     getActiveSession (snd (logout st sessionId)) sid = getActiveSession st sid) /\
  users (snd (logout st sessionId)) = users st /\
  logout (snd (logout st sessionId)) sessionId = (false, snd (logout st sessionId)).
Proof.
  unfold logout, getActiveSession. cbn. repeat split.
  - apply bool_decide_eq_true.
  - apply bool_decide_eq_true.
  - apply lookup_delete_eq.
  - intros sid Hsid. now apply lookup_delete_ne.
  - f_equal.
    + apply bool_decide_eq_false. rewrite lookup_delete_eq. now intros [? ?].
    + f_equal. apply delete_id, lookup_delete_eq.
Qed.

(** X13: [updateSessionActivity] never creates a session: for an identifier
    that is not registered it changes nothing; for a registered one it sets
    the last-activity time of that session and nothing else. *)
Theorem updateSessionActivity_spec (st : AuthState) (sessionId : string) (now : Z) :
  (getActiveSession st sessionId = None ->
   updateSessionActivity st sessionId now = st) /\
  (forall s, getActiveSession st sessionId = Some s ->
     getActiveSession (updateSessionActivity st sessionId now) sessionId
     = Some (touch_session now s) /\
     session_lastActivity (touch_session now s) = now /\
     session_userId (touch_session now s) = session_userId s) /\
  (forall sid, sid <> sessionId ->
     getActiveSession (updateSessionActivity st sessionId now) sid
     = getActiveSession st sid) /\
  users (updateSessionActivity st sessionId now) = users st.
Proof.
  unfold updateSessionActivity, getActiveSession.
  split; [now intros ->|]. split; [|split].
  - intros s Hs. rewrite Hs. cbn. split; [apply lookup_insert_eq | split; reflexivity].
  - intros sid Hsid. destruct (sessions st !! sessionId); [|reflexivity].
    cbn. now apply lookup_insert_ne.
  - now destruct (sessions st !! sessionId).
Qed.

End AccountProperties.

(** ** The session sweep and the statistics *)

Lemma sweep_keeps (now : Z) (l : list (string * Session)) (acc : gmap string Session)
    (k : string) :
  (forall s, (k, s) ∈ l -> now - session_lastActivity s <= expiredTime) ->
  foldr (sweep_step now) acc l !! k = acc !! k.
Proof.
  induction l as [|[k' s'] l IH]; intros Hl; [reflexivity|].
  cbn [foldr]. unfold sweep_step at 1. cbn [fst snd].
  assert (IH' : foldr (sweep_step now) acc l !! k = acc !! k).
  { apply IH. intros s Hs. apply Hl. now apply list_elem_of_further. }
  destruct (Z.ltb_spec expiredTime (now - session_lastActivity s')) as [Hexp|_]; [|exact IH'].
  destruct (decide (k' = k)) as [->|Hne].
  - specialize (Hl s' (list_elem_of_here _ _)). lia.
  - now rewrite lookup_delete_ne.
Qed.

Lemma sweep_drops (now : Z) (l : list (string * Session)) (acc : gmap string Session)
    (k : string) (s : Session) :
  (k, s) ∈ l -> expiredTime < now - session_lastActivity s ->
  foldr (sweep_step now) acc l !! k = None.
Proof.
  intros Hin Hexp. induction l as [|[k' s'] l IH]; [inversion Hin|].
  cbn [foldr]. unfold sweep_step at 1. cbn [fst snd].
  apply elem_of_cons in Hin as [[= <- <-] | Hin].
  - apply Z.ltb_lt in Hexp. rewrite Hexp. apply lookup_delete_eq.
  - specialize (IH Hin).
    destruct (expiredTime <? now - session_lastActivity s'); [|exact IH].
    destruct (decide (k' = k)) as [->|Hne]; [apply lookup_delete_eq|].
    now rewrite lookup_delete_ne.
Qed.

Lemma cleanupSessions_lookup (st : AuthState) (now : Z) (sessionId : string) :
  sessions (cleanupSessions st now) !! sessionId
  = match sessions st !! sessionId with
    | Some s => if expiredTime <? now - session_lastActivity s then None else Some s
    | None => None
    end.
Proof.
  unfold cleanupSessions. cbn [sessions].
  destruct (sessions st !! sessionId) as [s|] eqn:Hs.
  - destruct (Z.ltb_spec expiredTime (now - session_lastActivity s)) as [Hexp|Hok].
    + apply (sweep_drops now _ _ sessionId s); [|exact Hexp].
      now apply elem_of_map_to_list.
    + rewrite sweep_keeps; [exact Hs|].
      intros s' Hs'%elem_of_map_to_list. congruence.
  - rewrite sweep_keeps; [exact Hs|].
    intros s' Hs'%elem_of_map_to_list. congruence.
Qed.

(** X14: [cleanupSessions] removes exactly the sessions whose last activity
    lies more than 24 hours before the current time (a session idle for
    exactly 24 hours stays), keeps every other session unchanged, and does not
    touch the users. *)
Theorem cleanupSessions_spec (st : AuthState) (now : Z) (sessionId : string) :
  getActiveSession (cleanupSessions st now) sessionId
  = match getActiveSession st sessionId with
    | Some s => if expiredTime <? now - session_lastActivity s then None else Some s
    | None => None
    end /\
  users (cleanupSessions st now) = users st.
Proof.
  split; [|reflexivity]. unfold getActiveSession. apply cleanupSessions_lookup.
Qed.

(** X15: a registered session whose activity was refreshed at [t] survives a
    sweep at [now] exactly when [now - t] is at most 24 hours. *)
Theorem touched_session_sweep (st : AuthState) (sessionId : string) (t now : Z)
    (s : Session) :
  getActiveSession st sessionId = Some s ->
  getActiveSession (cleanupSessions (updateSessionActivity st sessionId t) now) sessionId
  = if expiredTime <? now - t then None else Some (touch_session t s).
Proof.
  intros Hs. unfold getActiveSession in *. rewrite cleanupSessions_lookup.
  unfold updateSessionActivity. rewrite Hs. cbn.
  now rewrite lookup_insert_eq.
Qed.

Lemma touched_session_sweep_witness :
  getActiveSession
    (cleanupSessions
       (updateSessionActivity (snd aliceLogin) "s-1" 10000) (10000 + expiredTime)) "s-1"
  = Some (touch_session 10000 (mkSession "s-1" "u-1" "alice" 5000 5000 true)).
Proof.
  apply (touched_session_sweep (snd aliceLogin) "s-1" 10000 (10000 + expiredTime)
           (mkSession "s-1" "u-1" "alice" 5000 5000 true)).
  vm_compute. reflexivity.
Defined.

Lemma filter_length_le {A} (p : A -> bool) (xs : list A) :
  (length (List.filter p xs) <= length xs)%nat.
Proof.
  induction xs as [|x r IH]; cbn; [lia|]. destruct (p x); cbn; lia.
Qed.

(** X16: [getUserStats] always answers, without its error field: the total is
    the number of stored users, the active and the recent counts never exceed
    it, the active count equals it when every user is active, and the session
    count is the size of the registry. *)
Theorem getUserStats_counts (st : AuthState) (now : Z) :
  exists stats,
    getUserStats st now = Ok stats /\
    stats_error stats = None /\
    totalUsers stats = length (users st) /\
    (activeUsers stats <= totalUsers stats)%nat /\
    (recentUsers stats <= totalUsers stats)%nat /\
    activeSessions stats = size (sessions st) /\
    ((forall u, u ∈ users st -> user_isActive u = true) ->
     activeUsers stats = totalUsers stats).
Proof.
  eexists. split; [reflexivity|]. cbn.
  repeat split; try apply filter_length_le.
  intros Hact. f_equal. induction (users st) as [|u r IH]; [reflexivity|].
  cbn. rewrite (Hact u (list_elem_of_here _ _)). f_equal. apply IH.
  intros v Hv. apply Hact. now apply list_elem_of_further.
Qed.

Section StatsAfterSignup.
Context {L : Libs}.

(** X17: a successful [signup] raises the total, the active and the recent
    user counts of [getUserStats] by one each (the new user counts as recent
    for the 24 hours after the signup) and leaves the session count; the
    counts compared are those of the store on which the signup resumed. *)
Theorem getUserStats_after_signup (st st' st'' : AuthState) (username : string)
    (password : jsval) (uuid salt : string) (now t : Z) (info : UserInfo)
    (stats : UserStats) :
  signup st st' username password uuid salt now = Ok (info, st'') ->
  getUserStats st' t = Ok stats ->
  t - 24 * 60 * 60 * 1000 < now ->
  getUserStats st'' t
  = Ok (mkUserStats (totalUsers stats + 1) (activeUsers stats + 1)
          (recentUsers stats + 1) (activeSessions stats) None).
Proof.
  intros (q & _ & _ & _ & _ & Hus & Hss & _)%signup_Ok [= <-] Ht.
  unfold getUserStats. cbn. rewrite Hus, Hss, !List.filter_app, !length_app. cbn.
  apply Z.ltb_lt in Ht. now rewrite Ht.
Qed.

End StatsAfterSignup.

(** ** Token verification and the protected-route middleware *)

Lemma split_one_word_app (w rest : string) :
  split " " w = [w] ->
  split " " (String.append w (String " " rest)) = w :: split " " rest.
Proof.
  induction w as [|c r IH]; [reflexivity|].
  change (String.append (String c r) (String " " rest))
    with (String c (String.append r (String " " rest))).
  cbn [split]. destruct (Ascii.eqb c " "); [discriminate|].
  destruct (split " " r) as [|h t] eqn:Hr.
  - intros [= <-]. discriminate Hr.
  - intros [= -> ->]. now rewrite IH.
Qed.

Section MiddlewareProperties.
Context {L : Libs}.

(** X18: [verifyTokenSync] accepts a token exactly when the token library
    accepts it at the current time and the first stored user with the
    payload's identifier is active; the token of an unknown or of an inactive
    user is answered with [null]. *)
Theorem verifyTokenSync_accepts_iff (st : AuthState) (token : string) (now : Z)
    (payload : Payload) :
  verifyTokenSync st token now = Ok (Some payload) <->
  jwt_verify token SECRET now = Ok payload /\
  exists i u, findUserById (users st) (payload_id payload) = Some (i, u) /\
              user_isActive u = true.
Proof.
  unfold verifyTokenSync. split.
  - destruct (jwt_verify token SECRET now) as [decoded|e]; cbn; [|discriminate].
    destruct (findUserById (users st) (payload_id decoded)) as [[i u]|] eqn:Hf; [|discriminate].
    destruct (user_isActive u) eqn:Hu; cbn; [|discriminate].
    intros [= <-]. eauto.
  - intros (-> & i & u & Hf & Hu). cbn. now rewrite Hf, Hu.
Qed.

Lemma requireAuth_other_sessions (st : AuthState) (h : Headers) (now : Z) (sid : string) :
  x_session_id h <> Some sid ->
  sessions (snd (requireAuth st h now)) !! sid = sessions st !! sid.
Proof.
  intros Hsid. unfold requireAuth. destruct (bearer_token h) as [tok|]; cbn; [|reflexivity].
  destruct (verifyTokenSync st tok now) as [[payload|]|e]; cbn; try reflexivity.
  destruct (x_session_id h) as [sid0|]; [|reflexivity].
  destruct (nonempty sid0); [|reflexivity].
  unfold updateSessionActivity. destruct (sessions st !! sid0) as [s|]; [|reflexivity].
  cbn. apply lookup_insert_ne. congruence.
Qed.

(** X19: [requireAuth] never changes the users and never adds or removes a
    session; a request it answers itself (401, 403) leaves the whole state as
    it was, and a request it hands on changes at most the last-activity time
    of the session the [x-session-id] header names. *)
Theorem requireAuth_effect (st : AuthState) (h : Headers) (now : Z) :
  users (snd (requireAuth st h now)) = users st /\
  dom (sessions (snd (requireAuth st h now))) = dom (sessions st) /\
  (forall code error, fst (requireAuth st h now) = Status code error ->
     snd (requireAuth st h now) = st) /\
  (forall sid, x_session_id h <> Some sid ->
     getActiveSession (snd (requireAuth st h now)) sid = getActiveSession st sid).
Proof.
  unfold requireAuth. destruct (bearer_token h) as [tok|]; cbn; [|by repeat split].
  destruct (verifyTokenSync st tok now) as [[payload|]|e]; cbn; try by repeat split.
  destruct (x_session_id h) as [sid0|]; [|by repeat split].
  destruct (nonempty sid0); [|by repeat split].
  unfold updateSessionActivity, getActiveSession.
  destruct (sessions st !! sid0) as [s|] eqn:Hs; [|by repeat split].
  cbn. repeat split.
  - apply dom_insert_lookup_L. eauto.
  - discriminate.
  - intros sid Hsid. apply lookup_insert_ne. congruence.
Qed.

(** X20: the logout route removes the session that the [x-session-id] header
    names, whatever session and user the presented token belongs to, and
    removes no other session; without the header it removes none. *)
Theorem logoutRoute_drops_named_session (st st' : AuthState) (h : Headers) (now : Z)
    (user : Payload) :
  requireAuth st h now = (Next user, st') ->
  (forall sid, x_session_id h = Some sid -> nonempty sid = true ->
     getActiveSession (snd (logoutRoute st h now)) sid = None /\
     forall other, other <> sid ->
       getActiveSession (snd (logoutRoute st h now)) other = getActiveSession st other) /\
  (x_session_id h = None ->
   forall sid, getActiveSession (snd (logoutRoute st h now)) sid = getActiveSession st sid).
Proof.
  intros Hreq.
  pose proof (requireAuth_other_sessions st h now) as Hother.
  unfold logoutRoute. rewrite Hreq in *. cbn [snd] in Hother. split.
  - intros sid Hsid Hne. rewrite Hsid, Hne. cbn. unfold getActiveSession in *. cbn.
    split; [apply lookup_delete_eq|].
    intros other Hne'. rewrite lookup_delete_ne by congruence.
    apply Hother. rewrite Hsid. congruence.
  - intros Hnone sid. rewrite Hnone. cbn. apply Hother. now rewrite Hnone.
Qed.

(** X21: the middleware takes the second word of the [Authorization] header
    as the token and does not look at the first: any one-word scheme in front
    of a one-word token yields that token, and a header of a single word
    yields none. *)
Theorem bearer_token_any_scheme (scheme token : string) (sid : option string) :
  split " " scheme = [scheme] ->
  (split " " token = [token] -> nonempty token = true ->
   bearer_token (mkHeaders (Some (String.append scheme (String " " token))) sid)
   = Some token) /\
  bearer_token (mkHeaders (Some scheme) sid) = None.
Proof.
  intros Hscheme. split.
  - intros Htoken Hne. unfold bearer_token. cbn [authorization].
    rewrite (split_one_word_app scheme token Hscheme), Htoken. cbn [lookup list_lookup].
    rewrite Hne. now destruct scheme.
  - unfold bearer_token. cbn [authorization]. rewrite Hscheme.
    now destruct (nonempty scheme).
Qed.

End MiddlewareProperties.

Section SignupLogin.
Context {L : Libs} {HL : LibsSpec L}.

(** X22: after a successful [signup] under a fresh user identifier that
    resumed on a store in which the username was still free (no signup of the
    same username was stored while it was suspended), a [login] with the same
    username and password succeeds, for the user just created, and the token
    it returns is accepted by [verifyTokenSync] until 24 hours after the
    login, with the payload that [login] signed. *)
Theorem signup_then_login (st st' st1 : AuthState) (username : string)
    (password : jsval) (uuid salt sid : string) (now now2 : Z) (info : UserInfo) :
  (forall usr, usr ∈ users st' -> user_id usr <> uuid) ->
  findUser (users st') username = None ->
  signup st st' username password uuid salt now = Ok (info, st1) ->
  exists r st2,
    login st1 username password sid now2 = Ok (r, st2) /\
    info_id (login_user r) = uuid /\ login_sessionId r = sid /\
    forall t, t / 1000 < now2 / 1000 + 24 * 60 * 60 ->
      verifyTokenSync st2 (login_token r) t
      = Ok (Some (mkPayload uuid username sid (now2 / 1000)
                    (now2 / 1000 + 24 * 60 * 60))).
Proof.
  intros Hfresh Hfree (q & -> & Hq & Hu & _ & Hus & _)%signup_Ok.
  set (new := mkUser uuid username (bcrypt_hash q salt) now None true) in *.
  assert (Hfind : findUser (users st1) username = Some (length (users st'), new)).
  { unfold findUser. rewrite Hus. apply array_find_app_last.
    - now apply array_find_None.
    - apply String.eqb_refl. }
  assert (Hp : truthy (JStr q) = true).
  { cbn. now destruct (String.eqb_spec q ""). }
  do 2 eexists. split; [|split; [|split]].
  - unfold login. rewrite Hu, Hp, Hfind. cbn.
    rewrite bcrypt_compare_hash. cbn. reflexivity.
  - reflexivity.
  - reflexivity.
  - intros t Ht. unfold verifyTokenSync. cbn [login_token].
    rewrite (jwt_verify_sign
               (mkPayload uuid username sid (now2 / 1000) (now2 / 1000 + 24 * 60 * 60))
               SECRET t Ht).
    cbn [bind try_catch payload_id users].
    unfold findUserById. rewrite Hus.
    rewrite insert_app_r_alt, Nat.sub_diag by lia.
    change (<[0%nat := set_lastLogin now2 new]> [new]) with [set_lastLogin now2 new].
    rewrite array_find_app_last; [reflexivity| |apply String.eqb_refl].
    intros usr Husr. apply String.eqb_neq. now apply Hfresh.
Qed.

End SignupLogin.

(** ** The rate limiter, for any limit *)

(** X23: a request of one client never touches the window of another; a
    rejected request changes nothing at all; and after any request the client
    has a window. *)
Theorem rateLimit_frame (maxRequests windowMs : Z) (m : gmap string RateWindow)
    (c : string) (now : Z) :
  (forall c', c' <> c -> snd (rateLimit maxRequests windowMs m c now) !! c' = m !! c') /\
  (forall retryAfter,
     fst (rateLimit maxRequests windowMs m c now) = TooManyRequests retryAfter ->
     snd (rateLimit maxRequests windowMs m c now) = m) /\
  is_Some (snd (rateLimit maxRequests windowMs m c now) !! c).
Proof.
  unfold rateLimit. destruct (m !! c) as [w|] eqn:Hw.
  - destruct (resetTime w <? now); [|destruct (maxRequests <=? count w)]; cbn;
      repeat split; try discriminate;
      try (intros c' Hc; now apply lookup_insert_ne);
      try (rewrite lookup_insert_eq; eauto); eauto.
  - cbn. repeat split; try discriminate.
    + intros c' Hc. now apply lookup_insert_ne.
    + rewrite lookup_insert_eq. eauto.
Qed.

Lemma serve_cons (maxRequests windowMs : Z) (m : gmap string RateWindow) (c : string)
    (now : Z) (rest : list Z) :
  serve maxRequests windowMs m c (now :: rest)
  = (fst (rateLimit maxRequests windowMs m c now)
       :: fst (serve maxRequests windowMs (snd (rateLimit maxRequests windowMs m c now)) c rest),
     snd (serve maxRequests windowMs (snd (rateLimit maxRequests windowMs m c now)) c rest)).
Proof.
  cbn [serve]. destruct (rateLimit maxRequests windowMs m c now) as [v m'].
  cbn [fst snd]. now destruct (serve maxRequests windowMs m' c rest).
Qed.

(** Inside an open window with [k] requests counted, the next
    [maxRequests - k] requests pass and the others are rejected. *)
Lemma serve_within (maxRequests windowMs : Z) (c : string) (reset : Z) (times : list Z) :
  forall (m : gmap string RateWindow) (k : Z),
    m !! c = Some (mkRateWindow k reset) ->
    Forall (fun t => t <= reset) times ->
    is_pass <$> fst (serve maxRequests windowMs m c times)
    = replicate (length times `min` Z.to_nat (maxRequests - k)) true
      ++ replicate (length times - Z.to_nat (maxRequests - k)) false /\
    snd (serve maxRequests windowMs m c times) !! c
    = Some (mkRateWindow
              (k + Z.of_nat (length times `min` Z.to_nat (maxRequests - k))) reset).
Proof.
  induction times as [|t rest IH]; intros m k Hm Hall.
  - cbn. rewrite Hm. split; [reflexivity|]. do 2 f_equal. lia.
  - apply Forall_cons in Hall as [Ht Hrest]. rewrite serve_cons. cbn [fst snd length].
    destruct (Z.lt_ge_cases k maxRequests) as [Hlt|Hge].
    + rewrite (rateLimit_within maxRequests windowMs m c t k reset Hm Ht Hlt). cbn [fst snd].
      destruct (IH (<[c := mkRateWindow (k + 1) reset]> m) (k + 1)
                  (lookup_insert_eq _ _ _) Hrest) as [IHv IHm].
      rewrite fmap_cons, IHv, IHm. cbn [is_pass].
      replace (Z.to_nat (maxRequests - k)) with (S (Z.to_nat (maxRequests - (k + 1)))) by lia.
      cbn [Nat.min Nat.sub replicate app]. split; [reflexivity|].
      do 2 f_equal. lia.
    + rewrite (rateLimit_exhausted maxRequests windowMs m c t k reset Hm Ht Hge). cbn [fst snd].
      destruct (IH m k Hm Hrest) as [IHv IHm].
      rewrite fmap_cons, IHv, IHm. cbn [is_pass].
      replace (Z.to_nat (maxRequests - k)) with 0%nat by lia.
      rewrite !Nat.min_0_r, !Nat.sub_0_r. cbn. split; reflexivity.
Qed.

(** X24: for any limit and any window length, the request that opens a
    window passes, whatever the limit (also a limit of 0 or less); of the
    requests that follow inside the window the first [maxRequests - 1] pass
    and all later ones are rejected. *)
Theorem rateLimit_any_limit (maxRequests windowMs : Z) (m : gmap string RateWindow)
    (c : string) (t1 : Z) (times : list Z) :
  match m !! c with
  | None => True
  | Some w => resetTime w < t1
  end ->
  Forall (fun t => t <= t1 + windowMs) times ->
  is_pass <$> fst (serve maxRequests windowMs m c (t1 :: times))
  = true :: replicate (length times `min` Z.to_nat (maxRequests - 1)) true
      ++ replicate (length times - Z.to_nat (maxRequests - 1)) false.
Proof.
  intros Hfresh Hall. rewrite serve_cons.
  rewrite (rateLimit_fresh maxRequests windowMs m c t1 Hfresh). cbn [fst snd].
  rewrite fmap_cons. cbn [is_pass]. f_equal.
  now apply (serve_within maxRequests windowMs c (t1 + windowMs) times _ 1
               (lookup_insert_eq _ _ _)).
Qed.

Lemma rateLimit_any_limit_witness :
  is_pass <$> fst (serve 0 60000 ∅ "10.0.0.1" [1000; 2000; 3000])
  = [true; false; false].
Proof.
  apply (rateLimit_any_limit 0 60000 ∅ "10.0.0.1" 1000 [2000; 3000]).
  - rewrite lookup_empty. exact I.
  - repeat constructor; lia.
Defined.

(** X25: the limiters share one table: the requests a client got through one
    limiter count against every other limiter.  After a window was opened and
    [n] more requests were served by a limiter with limit [maxA], a limiter
    with a limit of at most the count reached rejects the client's next
    request inside the window, even if it is its first one. *)
Theorem rateLimit_shared_table (maxA maxB windowA windowB : Z)
    (m : gmap string RateWindow) (c : string) (t1 t : Z) (times : list Z) :
  match m !! c with
  | None => True
  | Some w => resetTime w < t1
  end ->
  Forall (fun t => t <= t1 + windowA) times ->
  t <= t1 + windowA ->
  maxB <= 1 + Z.of_nat (length times `min` Z.to_nat (maxA - 1)) ->
  rateLimit maxB windowB (snd (serve maxA windowA m c (t1 :: times))) c t
  = (TooManyRequests (ceil_div (t1 + windowA - t) 1000),
     snd (serve maxA windowA m c (t1 :: times))).
Proof.
  intros Hfresh Hall Ht Hmax. rewrite serve_cons.
  rewrite (rateLimit_fresh maxA windowA m c t1 Hfresh). cbn [fst snd].
  destruct (serve_within maxA windowA c (t1 + windowA) times
              (<[c := mkRateWindow 1 (t1 + windowA)]> m) 1
              (lookup_insert_eq _ _ _) Hall) as [_ Hm].
  now apply (rateLimit_exhausted maxB windowB _ c t _ (t1 + windowA) Hm).
Qed.

Lemma rateLimit_shared_table_witness :
  rateLimit 5 300000 (snd (serve 10 300000 ∅ "10.0.0.1" [1000; 2000; 3000; 4000; 5000]))
    "10.0.0.1" 6000
  = (TooManyRequests 295,
     snd (serve 10 300000 ∅ "10.0.0.1" [1000; 2000; 3000; 4000; 5000])).
Proof.
  apply (rateLimit_shared_table 10 5 300000 300000 ∅ "10.0.0.1" 1000 6000
           [2000; 3000; 4000; 5000]).
  - rewrite lookup_empty. exact I.
  - repeat constructor; lia.
  - lia.
  - vm_compute. discriminate.
Defined.

(** ** The note routes *)

Section RouteProperties.
Context {L : Libs}.

Lemma requireAuth_Status (st st' : AuthState) (h : Headers) (now code : Z)
    (error : string) :
  requireAuth st h now = (Status code error, st') ->
  (code = 401 \/ code = 403) /\ st' = st.
Proof.
  unfold requireAuth. destruct (bearer_token h) as [tok|]; cbn.
  - unfold verifyTokenSync. destruct (jwt_verify tok SECRET now) as [payload|e]; cbn.
    + destruct (findUserById (users st) (payload_id payload)) as [[j u]|]; cbn.
      * destruct (user_isActive u); cbn; [discriminate|]. intros [= <- _ <-]. auto.
      * intros [= <- _ <-]. auto.
    + intros [= <- _ <-]. auto.
  - intros [= <- _ <-]. auto.
Qed.

(** X26: no note route reads or changes the note store for a request that
    [requireAuth] does not hand on: each of the five routes answers with the
    middleware's status (401 or 403) and error text and leaves the notes and
    the sessions as they were. *)
Theorem note_routes_require_auth (st st' : AuthState) (notes : list Note) (h : Headers)
    (now code : Z) (error : string) (query : ListOptions) (id uuid : string)
    (body : option (gmap string jsval)) :
  requireAuth st h now = (Status code error, st') ->
  (code = 401 \/ code = 403) /\
  listRoute st notes h query now = (mkReply code (ErrorBody error), st, notes) /\
  getRoute st notes h id now = (mkReply code (ErrorBody error), st, notes) /\
  createRoute st notes h body uuid now = (mkReply code (ErrorBody error), st, notes) /\
  updateRoute st notes h id body now = (mkReply code (ErrorBody error), st, notes) /\
  deleteRoute st notes h id now = (mkReply code (ErrorBody error), st, notes).
Proof.
  intros Hreq. destruct (requireAuth_Status _ _ _ _ _ _ Hreq) as [Hcode ->].
  unfold listRoute, getRoute, createRoute, updateRoute, deleteRoute. rewrite Hreq.
  repeat split; exact Hcode.
Qed.

Lemma getNote_returns (notes : list Note) (userId noteId : string) :
  exists r notes', getNote notes userId noteId = Ok (r, notes').
Proof.
  unfold getNote. destruct (findIndex (live_match userId noteId) notes) as [i|]; cbn; [|eauto].
  destruct (notes !! i); eauto.
Qed.

Lemma updateNote_returns (notes : list Note) (userId noteId : string)
    (updateData : gmap string jsval) (now : Z) :
  exists r notes', updateNote notes userId noteId updateData now = Ok (r, notes').
Proof.
  unfold updateNote. destruct (findIndex (live_match userId noteId) notes) as [i|] eqn:Hi;
    cbn; [|eauto].
  destruct (findIndex_Some _ _ _ Hi) as (n & -> & _). eauto.
Qed.

Lemma deleteNote_returns (notes : list Note) (userId noteId : string) (now : Z) :
  exists b notes', deleteNote notes userId noteId now = Ok (b, notes').
Proof.
  unfold deleteNote. destruct (findIndex (live_match userId noteId) notes) as [i|] eqn:Hi;
    cbn; [|eauto].
  destruct (findIndex_Some _ _ _ Hi) as (n & -> & _). eauto.
Qed.

(** [updateNote] on a request without a body: [null] when no live note of
    the caller has the identifier, else the error of its [catch]; the store
    is not written. *)
Lemma updateNote_body_None (notes : list Note) (userId noteId : string) (now : Z) :
  updateNote_body notes userId noteId None now
  = match findIndex (live_match userId noteId) notes with
    | None => Ok (None, notes)
    | Some _ => Throw (Error "Failed to update note")
    end.
Proof.
  unfold updateNote_body.
  now destruct (findIndex (live_match userId noteId) notes).
Qed.

(** X27: the status of each note route for a request that [requireAuth]
    hands on.  Reading and deleting answer 200 or 404.  Creating answers 201
    for a request with a JSON body and 500, storing nothing, for one without
    ([req.body] undefined).  Updating answers 200 or 404 for a request with
    a body; without one it answers 404 when no live note of the caller has
    the identifier and 500, storing nothing, when one has.  The listing
    answers 200 or 500. *)
Theorem note_routes_status (st st' : AuthState) (notes : list Note) (h : Headers)
    (now : Z) (user : Payload) (query : ListOptions) (id uuid : string)
    (body : option (gmap string jsval)) :
  requireAuth st h now = (Next user, st') ->
  (reply_status (fst (fst (getRoute st notes h id now))) = 200 \/
   reply_status (fst (fst (getRoute st notes h id now))) = 404) /\
  match body with
  | Some _ =>
      reply_status (fst (fst (createRoute st notes h body uuid now))) = 201 /\
      (reply_status (fst (fst (updateRoute st notes h id body now))) = 200 \/
       reply_status (fst (fst (updateRoute st notes h id body now))) = 404)
  | None =>
      createRoute st notes h None uuid now
      = (mkReply 500 (ErrorBody "Failed to create note"), st', notes) /\
      updateRoute st notes h id None now
      = match findIndex (live_match (payload_id user) id) notes with
        | None => (mkReply 404 (ErrorBody "Note not found"), st', notes)
        | Some _ => (mkReply 500 (ErrorBody "Failed to update note"), st', notes)
        end
  end /\
  (reply_status (fst (fst (deleteRoute st notes h id now))) = 200 \/
   reply_status (fst (fst (deleteRoute st notes h id now))) = 404) /\
  (reply_status (fst (fst (listRoute st notes h query now))) = 200 \/
   reply_status (fst (fst (listRoute st notes h query now))) = 500).
Proof.
  intros Hreq. unfold listRoute, getRoute, createRoute, updateRoute, deleteRoute.
  rewrite Hreq. split; [|split; [|split]].
  - destruct (getNote_returns notes (payload_id user) id) as ([n|] & notes' & ->); cbn; auto.
  - destruct body as [updateData|].
    + split; [reflexivity|]. cbn [updateNote_body].
      destruct (updateNote_returns notes (payload_id user) id updateData now)
        as ([n|] & notes' & ->); cbn; auto.
    + split; [reflexivity|]. rewrite updateNote_body_None.
      now destruct (findIndex (live_match (payload_id user) id) notes).
  - destruct (deleteNote_returns notes (payload_id user) id now)
      as ([|] & notes' & ->); cbn; auto.
  - destruct (listNotes notes (payload_id user) query now); cbn; auto.
Qed.

(** X28: a request authenticated as one user cannot reach the notes of
    another: whichever note route serves it, a stored note of a different
    owner is afterwards still stored, unchanged, at its position, and the
    listing it gets back holds notes of the authenticated user only. *)
Theorem note_routes_isolate_owners (st st' : AuthState) (notes : list Note)
    (h : Headers) (now : Z) (user : Payload) (query : ListOptions) (id uuid : string)
    (body : option (gmap string jsval)) (j : nat) (n : Note) :
  requireAuth st h now = (Next user, st') ->
  notes !! j = Some n -> note_owner n <> payload_id user ->
  snd (getRoute st notes h id now) !! j = Some n /\
  snd (createRoute st notes h body uuid now) !! j = Some n /\
  snd (updateRoute st notes h id body now) !! j = Some n /\
  snd (deleteRoute st notes h id now) !! j = Some n /\
  snd (listRoute st notes h query now) = notes /\
  forall l, reply_content (fst (fst (listRoute st notes h query now))) = NotesBody l ->
    forall x, x ∈ l -> note_owner x = payload_id user.
Proof.
  intros Hreq Hj Hown.
  unfold listRoute, getRoute, createRoute, updateRoute, deleteRoute. rewrite Hreq.
  assert (Hn : note_id n <> id \/ note_owner n <> payload_id user \/ note_isDeleted n = true)
    by auto.
  repeat split.
  - destruct (getNote notes (payload_id user) id) as [[[x|] notes']|e] eqn:H; cbn; auto;
      apply getNote_in_place, in_place_change_frame in H as (_ & _ & H); eauto.
  - destruct body as [fields|]; cbn; [now apply lookup_app_l_Some | exact Hj].
  - destruct body as [updateData|].
    + cbn [updateNote_body].
      destruct (updateNote notes (payload_id user) id updateData now)
        as [[[x|] notes']|e] eqn:H;
        cbn; auto;
        apply updateNote_in_place, in_place_change_frame in H as (_ & _ & H); eauto.
    + rewrite updateNote_body_None.
      now destruct (findIndex (live_match (payload_id user) id) notes).
  - destruct (deleteNote notes (payload_id user) id now) as [[[|] notes']|e] eqn:H;
      cbn; auto;
      apply deleteNote_in_place, in_place_change_frame in H as (_ & _ & H); eauto.
  - now destruct (listNotes notes (payload_id user) query now).
  - destruct (listNotes notes (payload_id user) query now) as [l0|e] eqn:H; cbn;
      [|discriminate].
    intros l [= <-] x Hx. apply listNotes_sound in H as [Hperm _]. rewrite Hperm in Hx.
    apply list_elem_of_In, List.filter_In in Hx as [_ Hsel].
    unfold selected, owned_live in Hsel.
    apply andb_true_iff in Hsel as [Hsel _]. apply andb_true_iff in Hsel as [Hsel _].
    apply andb_true_iff in Hsel as [Ho _]. now apply String.eqb_eq.
Qed.

End RouteProperties.

(** ** Reading time and excerpts *)

Lemma ceil_div_200_mono (a b : Z) : a <= b -> ceil_div a 200 <= ceil_div b 200.
Proof.
  intros Hab. unfold ceil_div.
  pose proof (Z.div_le_mono (- b) (- a) 200 ltac:(lia) ltac:(lia)). lia.
Qed.

Lemma ceil_div_200_pos (a : Z) : 1 <= a -> 1 <= ceil_div a 200.
Proof.
  intros Ha. unfold ceil_div.
  pose proof (Z.div_mod (- a) 200 ltac:(lia)).
  pose proof (Z.mod_pos_bound (- a) 200 ltac:(lia)). lia.
Qed.

Lemma split_ws_nonempty (prev : bool) (s : string) : (1 <= length (split_ws prev s))%nat.
Proof.
  revert prev. induction s as [|c r IH]; intros prev; cbn; [lia|].
  destruct (is_space c).
  - destruct prev; cbn; [apply IH | lia].
  - specialize (IH false). destruct (split_ws false r); cbn in *; lia.
Qed.

Lemma split_ws_blank (prev : bool) (s : string) :
  forallb is_space (list_ascii_of_string s) = true ->
  List.filter (fun word => (0 <? String.length word)%nat) (split_ws prev s) = [].
Proof.
  revert prev. induction s as [|c r IH]; intros prev; cbn; [reflexivity|].
  intros [Hc Hr]%andb_true_iff. rewrite Hc.
  destruct prev; cbn; now apply IH.
Qed.

(** X29: [calculateReadingTime] is at least one minute for every content,
    the empty one included, and never below the reading time the schema's
    pre-save hook computes from the same content; for a content made of white
    space only the hook computes 0 words and 0 minutes. *)
Theorem reading_time_bounds (content : string) :
  1 <= calculateReadingTime content /\
  0 <= readingTime content <= calculateReadingTime content /\
  (forallb is_space (list_ascii_of_string content) = true ->
   wordCount content = 0%nat /\ readingTime content = 0).
Proof.
  unfold calculateReadingTime, readingTime, wordCount. split; [|split; [split|]].
  - apply ceil_div_200_pos. pose proof (split_ws_nonempty false content). lia.
  - change 0 with (ceil_div 0 200). apply ceil_div_200_mono. lia.
  - apply ceil_div_200_mono.
    pose proof (filter_length_le (fun word => (0 <? String.length word)%nat)
                  (split_ws false content)). lia.
  - intros Hblank. now rewrite (split_ws_blank false content Hblank).
Qed.

Lemma substring_0_length (n : nat) (s : string) :
  String.length (String.substring 0 n s) = Nat.min n (String.length s).
Proof.
  revert s. induction n as [|n IH]; intros [|c r]; cbn; auto.
Qed.

Lemma substring_0_prefix (n : nat) (s : string) :
  String.prefix (String.substring 0 n s) s = true.
Proof.
  revert s. induction n as [|n IH]; intros [|c r]; cbn; auto.
  destruct (ascii_dec c c); [apply IH | congruence].
Qed.

Lemma string_length_append (a b : string) :
  String.length (String.append a b) = (String.length a + String.length b)%nat.
Proof.
  induction a as [|c r IH]; [reflexivity|].
  change (S (String.length (String.append r b)) = S (String.length r + String.length b)).
  now rewrite IH.
Qed.

(** The excerpt of a content of at most 150 characters is the content
    itself; of a longer one it is its first 150 characters followed by three
    dots, 153 characters in all. *)
Theorem excerpt_spec (content : string) :
  ((String.length content <= 150)%nat -> excerpt content = content) /\
  ((150 < String.length content)%nat ->
   exists head,
     excerpt content = String.append head "..." /\
     String.length head = 150%nat /\ String.prefix head content = true /\
     String.length (excerpt content) = 153%nat).
Proof.
  unfold excerpt. split; intros Hlen.
  - destruct (Nat.ltb_spec 150 (String.length content)); [lia | reflexivity].
  - destruct (Nat.ltb_spec 150 (String.length content)); [|lia].
    exists (String.substring 0 150 content).
    assert (Hhead : String.length (String.substring 0 150 content) = 150%nat)
      by (rewrite substring_0_length; lia).
    repeat split; auto.
    + apply substring_0_prefix.
    + rewrite string_length_append, Hhead. reflexivity.
Qed.

(** ** Concrete runs of the further properties *)

Lemma signup_twice_rejected_witness :
  signup aliceSignedUp (snd aliceLogin) "alice" (JNum 5) "u-2" "salt2" 2000
  = Throw (Error "Username already exists").
Proof.
  apply (signup_twice_rejected (mkAuthState [] ∅) (mkAuthState [] ∅) aliceSignedUp
           (snd aliceLogin) "alice" (JStr "pw1") "u-1" "salt"
           (JNum 5) "u-2" "salt2" 1000 2000 (mkUserInfo "u-1" "alice" 1000 None true));
    reflexivity.
Defined.

Lemma usernames_unique_unless_raced_witness :
  NoDup (user_username <$> users aliceSignedUp) /\
  exists info2 st2,
    signup (mkAuthState [] ∅) aliceSignedUp "alice" (JStr "pw2") "u-2" "salt2" 2000
    = Ok (info2, st2) /\
    ~ NoDup (user_username <$> users st2).
Proof.
  destruct (usernames_unique_unless_raced (mkAuthState [] ∅) (mkAuthState [] ∅)
              aliceSignedUp "alice" (JStr "pw1") "u-1" "salt" 1000
              (mkUserInfo "u-1" "alice" 1000 None true) eq_refl
              (NoDup_nil_2 (A := string)))
    as (Hiff & _ & Hrace & _).
  split.
  - apply (proj2 Hiff). reflexivity.
  - apply (Hrace "pw2" "u-2" "salt2" 2000). discriminate.
Defined.

Lemma login_opens_session_witness :
  login_sessionId (fst aliceLogin) = "s-1" /\
  exists s, getActiveSession (snd aliceLogin) "s-1" = Some s /\ session_userId s = "u-1".
Proof.
  destruct (login_opens_session (L := RefLibs.libs) aliceSignedUp (snd aliceLogin) "alice" (JStr "pw1") "s-1" 5000
              (fst aliceLogin) ltac:(vm_compute; reflexivity))
    as (Hsid & (s & Hs & Hu & _) & _).
  split; [exact Hsid|]. exists s. split; [exact Hs | exact Hu].
Defined.

Lemma logout_spec_witness :
  fst (logout (snd aliceLogin) "s-1") = true.
Proof.
  apply (proj1 (logout_spec (snd aliceLogin) "s-1")).
  eexists. vm_compute. reflexivity.
Defined.

Lemma updateSessionActivity_spec_witness :
  updateSessionActivity (snd aliceLogin) "s-2" 9000 = snd aliceLogin.
Proof.
  apply (proj1 (updateSessionActivity_spec (snd aliceLogin) "s-2" 9000)).
  vm_compute. reflexivity.
Defined.

Lemma getUserStats_counts_witness :
  exists stats,
    getUserStats aliceSignedUp 2000 = Ok stats /\ activeUsers stats = totalUsers stats.
Proof.
  destruct (getUserStats_counts aliceSignedUp 2000) as (stats & Hs & _ & _ & _ & _ & _ & Hall).
  exists stats. split; [exact Hs|]. apply Hall.
  intros u Hu. apply list_elem_of_singleton in Hu as ->. reflexivity.
Defined.

Lemma getUserStats_after_signup_witness :
  getUserStats aliceSignedUp 2000 = Ok (mkUserStats 1 1 1 0 None).
Proof.
  apply (getUserStats_after_signup (mkAuthState [] ∅) (mkAuthState [] ∅) aliceSignedUp
           "alice" (JStr "pw1") "u-1" "salt" 1000 2000 (mkUserInfo "u-1" "alice" 1000 None true)
           (mkUserStats 0 0 0 0 None)); [reflexivity | reflexivity | lia].
Defined.

Lemma verifyTokenSync_accepts_iff_witness :
  verifyTokenSync (snd aliceLogin) (login_token (fst aliceLogin)) 6000
  = Ok (Some (mkPayload "u-1" "alice" "s-1" 5 86405)).
Proof.
  apply (proj2 (verifyTokenSync_accepts_iff (snd aliceLogin) (login_token (fst aliceLogin))
                  6000 (mkPayload "u-1" "alice" "s-1" 5 86405))).
  split; [vm_compute; reflexivity|].
  do 2 eexists. split; vm_compute; reflexivity.
Defined.

Lemma requireAuth_effect_witness :
  snd (requireAuth (snd aliceLogin) (mkHeaders None (Some "s-1")) 6000) = snd aliceLogin.
Proof.
  apply (proj1 (proj2 (proj2 (requireAuth_effect (snd aliceLogin)
                                (mkHeaders None (Some "s-1")) 6000)))
           401 "Access token required").
  reflexivity.
Defined.

Lemma logoutRoute_drops_named_session_witness :
  getActiveSession (snd (logoutRoute (snd bobLogin) bobHeaders 9000)) "s-1" = None /\
  getActiveSession (snd (logoutRoute (snd bobLogin) bobHeaders 9000)) "s-2"
  = getActiveSession (snd bobLogin) "s-2".
Proof.
  destruct (proj1 (logoutRoute_drops_named_session (L := RefLibs.libs) (snd bobLogin)
                     (snd (requireAuth (L := RefLibs.libs) (snd bobLogin) bobHeaders 9000))
                     bobHeaders 9000
                     (mkPayload "u-2" "bob" "s-2" 8 86408) ltac:(vm_compute; reflexivity))
              "s-1" eq_refl eq_refl) as [Hgone Hothers].
  split; [exact Hgone | apply Hothers; discriminate].
Defined.

Lemma bearer_token_any_scheme_witness :
  bearer_token (mkHeaders (Some "Basic abc.def.ghi") None) = Some "abc.def.ghi" /\
  bearer_token (mkHeaders (Some "Basic") None) = None.
Proof.
  destruct (bearer_token_any_scheme "Basic" "abc.def.ghi" None eq_refl) as [Htok Hnone].
  split; [apply Htok; reflexivity | exact Hnone].
Defined.

Lemma signup_then_login_witness :
  exists r st2,
    login aliceSignedUp "alice" (JStr "pw1") "s-1" 5000 = Ok (r, st2) /\
    verifyTokenSync st2 (login_token r) 6000
    = Ok (Some (mkPayload "u-1" "alice" "s-1" 5 86405)).
Proof.
  destruct (signup_then_login (HL := ref_libs_spec) (mkAuthState [] ∅)
              (mkAuthState [] ∅) aliceSignedUp
              "alice" (JStr "pw1") "u-1" "salt" "s-1" 1000 5000
              (mkUserInfo "u-1" "alice" 1000 None true))
    as (r & st2 & Hlogin & _ & _ & Hverify).
  - intros usr Husr. inversion Husr.
  - reflexivity.
  - reflexivity.
  - exists r, st2. split; [exact Hlogin|]. apply (Hverify 6000). reflexivity.
Defined.

Lemma rateLimit_frame_witness :
  snd (rateLimit 1 60000 (<["10.0.0.1" := mkRateWindow 1 61000]> ∅) "10.0.0.1" 2000)
  = <["10.0.0.1" := mkRateWindow 1 61000]> ∅.
Proof.
  apply (proj1 (proj2 (rateLimit_frame 1 60000 (<["10.0.0.1" := mkRateWindow 1 61000]> ∅)
                         "10.0.0.1" 2000)) 59).
  reflexivity.
Defined.

Lemma note_routes_require_auth_witness :
  deleteRoute (snd aliceLogin) [sampleNote] (mkHeaders None None) "n1" 6000
  = (mkReply 401 (ErrorBody "Access token required"), snd aliceLogin, [sampleNote]).
Proof.
  apply (note_routes_require_auth (snd aliceLogin) (snd aliceLogin) [sampleNote]
           (mkHeaders None None) 6000 401 "Access token required"
           (mkListOptions JUndefined JUndefined) "n1" "n2" (Some ∅) eq_refl).
Defined.

Lemma note_routes_status_witness :
  reply_status (fst (fst (createRoute (snd aliceLogin) [] aliceHeaders (Some ∅) "n1" 6000)))
  = 201 /\
  reply_status (fst (fst (createRoute (snd aliceLogin) [] aliceHeaders None "n1" 6000)))
  = 500.
Proof.
  split.
  - apply (note_routes_status (L := RefLibs.libs) (snd aliceLogin)
             (snd (requireAuth (L := RefLibs.libs) (snd aliceLogin) aliceHeaders 6000))
             [] aliceHeaders 6000
             (mkPayload "u-1" "alice" "s-1" 5 86405) (mkListOptions JUndefined JUndefined)
             "n1" "n1" (Some ∅) ltac:(vm_compute; reflexivity)).
  - destruct (note_routes_status (L := RefLibs.libs) (snd aliceLogin)
                (snd (requireAuth (L := RefLibs.libs) (snd aliceLogin) aliceHeaders 6000))
                [] aliceHeaders 6000
                (mkPayload "u-1" "alice" "s-1" 5 86405)
                (mkListOptions JUndefined JUndefined)
                "n1" "n1" None ltac:(vm_compute; reflexivity))
      as (_ & (Hcreate & _) & _).
    now rewrite Hcreate.
Defined.

Lemma note_routes_isolate_owners_witness :
  snd (deleteRoute (snd aliceLogin) [sampleNote] aliceHeaders "n1" 6000) !! 0%nat
  = Some sampleNote.
Proof.
  apply (note_routes_isolate_owners (L := RefLibs.libs) (snd aliceLogin)
           (snd (requireAuth (L := RefLibs.libs) (snd aliceLogin) aliceHeaders 6000)) [sampleNote] aliceHeaders
           6000 (mkPayload "u-1" "alice" "s-1" 5 86405) (mkListOptions JUndefined JUndefined)
           "n1" "n2" (Some ∅) 0 sampleNote ltac:(vm_compute; reflexivity) eq_refl).
  discriminate.
Defined.

Lemma reading_time_bounds_witness :
  wordCount "  " = 0%nat /\ readingTime "  " = 0.
Proof.
  apply (proj2 (proj2 (reading_time_bounds "  "))). reflexivity.
Defined.
